(** * ACNH API: design codes, layer rendering and the error hierarchy

    A shallow embedding of
      - [acnh/errors.py]          (module [Errors]),
      - [acnh/designs.py]         (module [Designs]),
      - [acnh/designs/render.py]  (module [Render]),
    followed by the theorems that relate the embedding to the written
    specification of the design codec.

    Conventions.  Python [int] is [Z]: [Z.land], [Z.shiftr] and [Z.div] agree
    with Python's [&], [>>] and [//] on every sign; a division by zero, which
    raises in Python, does not occur, the divisors being the dimensions of a
    tile.  Python [str] is [string]; the design-code functions only
    compare characters with ASCII ones, so a code point outside ASCII behaves
    like any of its UTF-8 bytes: it is neither a hyphen nor in the alphabet.
    A Python [dict] is a [gmap], except where the iteration order of the
    dictionary is observable, in which case it is an association list.  A
    function that can raise returns a [result].

    The constants of [acnh/designs/format.py] that are read here ([WIDTH],
    [HEIGHT], [PALETTE_SIZE], [MAX_DESIGN_TILES], [BYTES_PER_PIXEL]) are
    section variables: every definition that reads one takes it as a
    parameter. *)

From Stdlib Require Import ZArith Ascii String List.
From stdpp Require Import gmap strings list pretty.

Local Open Scope Z_scope.
Local Open Scope string_scope.

(** ** Python values that cross the interfaces modelled here *)
Inductive value :=
  | VNone
  | VInt (z : Z)
  | VStr (s : string)
  | VStrList (l : list string)
  | VPair (a b : Z)
  | VLayer (name : string) (size : Z * Z).

(** [str(v)] for the values that the message templates name, integers and
    strings. *)
Definition py_str (v : value) : option string :=
  match v with
  | VInt z => Some (pretty z)
  | VStr s => Some s
  | _ => None
  end.

(** * acnh/errors.py *)
Module Errors.

(** The classes of the module, in the order they are declared. *)
Inductive cls :=
  | ACNHError | InvalidFormatError
  | DodoCodeError | UnknownDodoCodeError | InvalidDodoCodeError
  | ImageError | DesignError
  | UnknownDesignCodeError | InvalidDesignCodeError
  | UnknownAuthorIdError | InvalidAuthorIdError
  | InvalidScaleFactorError
  | InvalidLayerIndexError | InvalidLayerNameError
  | InvalidProArgument | CannotScaleThumbnailError
  | InvalidDesignError | InvalidPaletteError | DesignLitTheServerOnFireError
  | UnknownImageIdError | InvalidImageIdError | DeletionDeniedError
  | InvalidLayerSizeError | TiledImageTooBigError | InvalidImageArgument
  | InvalidLayerError | MissingLayerError | InvalidImageError
  | ImageNameTooLongError
  | InvalidPaginationError | TwoPaginationReferencesPassedError
  | InvalidPaginationLimitError
  | AuthorizationError | MissingUserAgentStringError
  | IncorrectAuthorizationError.

#[global] Instance cls_eq_dec : EqDecision cls.
Proof. solve_decision. Defined.

(** The base classes written in each [class] statement.  [Exception] is left
    out: it defines none of the attributes read below. *)
Definition bases (c : cls) : list cls :=
  match c with
  | ACNHError => []
  | InvalidFormatError => [ACNHError]
  | DodoCodeError => [ACNHError]
  | UnknownDodoCodeError => [DodoCodeError]
  | InvalidDodoCodeError => [DodoCodeError; InvalidFormatError]
  | ImageError => [ACNHError]
  | DesignError => [ACNHError]
  | UnknownDesignCodeError => [DesignError]
  | InvalidDesignCodeError => [DesignError; InvalidFormatError]
  | UnknownAuthorIdError => [DesignError]
  | InvalidAuthorIdError => [DesignError; InvalidFormatError]
  | InvalidScaleFactorError => [InvalidFormatError]
  | InvalidLayerIndexError => [DesignError]
  | InvalidLayerNameError => [DesignError]
  | InvalidProArgument => [DesignError; InvalidFormatError]
  | CannotScaleThumbnailError => [DesignError]
  | InvalidDesignError => [DesignError]
  | InvalidPaletteError => [DesignError]
  | DesignLitTheServerOnFireError => [InvalidDesignError; DesignError]
  | UnknownImageIdError => [ImageError]
  | InvalidImageIdError => [ImageError; InvalidFormatError]
  | DeletionDeniedError => [ImageError]
  | InvalidLayerSizeError => [ImageError]
  | TiledImageTooBigError => [ImageError]
  | InvalidImageArgument => [ImageError]
  | InvalidLayerError => [DesignError]
  | MissingLayerError => [InvalidLayerError]
  | InvalidImageError => [ImageError]
  | ImageNameTooLongError => [ImageError]
  | InvalidPaginationError => [ACNHError]
  | TwoPaginationReferencesPassedError => [ACNHError]
  | InvalidPaginationLimitError => [InvalidFormatError; InvalidPaginationError]
  | AuthorizationError => [ACNHError]
  | MissingUserAgentStringError => [AuthorizationError]
  | IncorrectAuthorizationError => [AuthorizationError]
  end.

(** *** Method resolution order (C3 linearisation) *)

Definition in_tail (c : cls) (s : list cls) : bool :=
  match s with
  | [] => false
  | _ :: t => bool_decide (c ∈ t)
  end.

Definition good_head (seqs : list (list cls)) (c : cls) : bool :=
  forallb (fun s => negb (in_tail c s)) seqs.

Definition drop_head (c : cls) (s : list cls) : list cls :=
  match s with
  | h :: t => if bool_decide (h = c) then t else s
  | [] => []
  end.

Definition nonempty (s : list cls) : bool :=
  match s with [] => false | _ => true end.

Fixpoint c3_merge (fuel : nat) (seqs : list (list cls)) : option (list cls) :=
  match fuel with
  | O => None
  | S fuel =>
    let seqs := List.filter nonempty seqs in
    match seqs with
    | [] => Some []
    | _ =>
      match List.find (good_head seqs) (omap head seqs) with
      | Some c => cons c <$> c3_merge fuel (map (drop_head c) seqs)
      | None => None
      end
    end
  end.

Fixpoint linearise (fuel : nat) (c : cls) : option (list cls) :=
  match fuel with
  | O => None
  | S fuel =>
    ls ← mapM (linearise fuel) (bases c);
    cons c <$> c3_merge 64 (ls ++ [bases c])%list
  end.

(** [type(self).__mro__], without [Exception], [BaseException], [object]. *)
Definition mro (c : cls) : list cls := default [c] (linearise 8 c).

(** *** Instances, exceptions and results *)

(** An exception instance: its class and its instance dictionary. *)
Record error := { klass : cls; attrs : gmap string value }.

(** [cls()] for a class without an [__init__] of its own, as in
    [raise InvalidDesignCodeError]. *)
Definition new (c : cls) : error := {| klass := c; attrs := ∅ |}.

(** What a modelled function can raise: an error of this module, or one of the
    interpreter's own exceptions. *)
Inductive exn :=
  | ACNH (e : error)
  | KeyError
  | ValueError
  | OverflowError
  | AttributeError
  | TypeError.

Inductive result (A : Type) :=
  | Ok (a : A)
  | Raise (e : exn).
Arguments Ok {A} a.
Arguments Raise {A} e.

Definition bind {A B} (m : result A) (k : A -> result B) : result B :=
  match m with
  | Ok a => k a
  | Raise e => Raise e
  end.

Notation "'let!' x := m 'in' k" := (bind m (fun x => k))
  (at level 10, x name, m at level 100, k at level 200).

(** [o] if present, else raise [e]: a dictionary or attribute access. *)
Definition or_raise {A} (e : exn) (o : option A) : result A :=
  match o with
  | Some a => Ok a
  | None => Raise e
  end.

Definition is_ok {A} (r : result A) : bool :=
  match r with Ok _ => true | Raise _ => false end.

(** *** The regular-expression fragment of [InvalidDesignCodeError.regex] *)

Inductive regex :=
  | ReSet (chars : string)            (* [chars] *)
  | ReChar (c : ascii)                (* a literal character *)
  | ReRepeat (r : regex) (n : nat)    (* r{n} *)
  | ReCat (r1 r2 : regex).

Fixpoint str_mem (c : ascii) (s : string) : bool :=
  match s with
  | EmptyString => false
  | String d s => if Ascii.eqb c d then true else str_mem c s
  end.

Fixpoint re_pattern (r : regex) : string :=
  match r with
  | ReSet chars => "[" +:+ chars +:+ "]"
  | ReChar c => String c EmptyString
  | ReRepeat r n => re_pattern r +:+ "{" +:+ pretty n +:+ "}"
  | ReCat r1 r2 => re_pattern r1 +:+ re_pattern r2
  end.

Fixpoint iter_match (step : list ascii -> option (list ascii)) (n : nat)
  (s : list ascii) : option (list ascii) :=
  match n with
  | O => Some s
  | S n => s' ← step s; iter_match step n s'
  end.

(** Every expression of the fragment consumes a fixed number of characters, so
    a match of a prefix is unique and is described by what is left. *)
Fixpoint re_match (r : regex) (s : list ascii) : option (list ascii) :=
  match r with
  | ReSet chars =>
    match s with
    | c :: s' => if str_mem c chars then Some s' else None
    | [] => None
    end
  | ReChar c =>
    match s with
    | d :: s' => if Ascii.eqb c d then Some s' else None
    | [] => None
    end
  | ReRepeat r n => iter_match (re_match r) n s
  | ReCat r1 r2 => s' ← re_match r1 s; re_match r2 s'
  end.

(** [r.fullmatch(s)] as a truth value. *)
Definition fullmatch (r : regex) (s : string) : bool :=
  bool_decide (re_match r (list_ascii_of_string s) = Some []).

(** [sep.join(rs)] on patterns. *)
Fixpoint re_join (sep : regex) (rs : list regex) : option regex :=
  match rs with
  | [] => None
  | [r] => Some r
  | r :: rs => ReCat r <$> (ReCat sep <$> re_join sep rs)
  end.

Definition DESIGN_CODE_ALPHABET : string := "0123456789BCDFGHJKLMNPQRSTVWXY".

Definition design_code_segment : regex := ReRepeat (ReSet DESIGN_CODE_ALPHABET) 4.

Definition design_code_regex : regex :=
  default design_code_segment
    (re_join (ReChar "-") (replicate 3 design_code_segment)).

(** *** Class attributes *)

Section Classes.

Variables PALETTE_SIZE MAX_DESIGN_TILES BYTES_PER_PIXEL WIDTH HEIGHT : Z.

(** The values of [http.HTTPStatus] used by the module. *)
Definition BAD_REQUEST : Z := 400.
Definition UNAUTHORIZED : Z := 401.
Definition NOT_FOUND : Z := 404.
Definition REQUEST_ENTITY_TOO_LARGE : Z := 413.

(** A message after its f-string has been evaluated: literal text and
    replacement fields.  A field names an attribute of the argument of
    [format] and a path of further attributes, so [{0.layer.name}] is
    [Field "layer" ["name"]] and the automatically numbered [{.max_len}] is
    [Field "max_len" []]. *)
Inductive piece :=
  | Lit (s : string)
  | Field (attr : string) (path : list string).

Definition dquote : string := String (ascii_of_nat 34) EmptyString.

Definition template := list piece.

(** [code = ...] in the body of a class; [None] where the class body does not
    assign it (an annotation alone creates no attribute). *)
Definition own_code (c : cls) : option Z :=
  match c with
  | UnknownDodoCodeError => Some 101
  | InvalidDodoCodeError => Some 102
  | UnknownDesignCodeError => Some 201
  | InvalidDesignCodeError => Some 202
  | UnknownAuthorIdError => Some 203
  | InvalidAuthorIdError => Some 204
  | InvalidScaleFactorError => Some 205
  | InvalidLayerIndexError => Some 206
  | InvalidLayerNameError => Some 207
  | InvalidProArgument => Some 208
  | CannotScaleThumbnailError => Some 209
  | InvalidDesignError => Some 210
  | InvalidPaletteError => Some 211
  | DesignLitTheServerOnFireError => Some 212
  | UnknownImageIdError => Some 301
  | InvalidImageIdError => Some 302
  | DeletionDeniedError => Some 303
  | InvalidLayerSizeError => Some 305
  | TiledImageTooBigError => Some 306
  | InvalidImageArgument => Some 307
  | MissingLayerError => Some 309
  | InvalidImageError => Some 310
  | ImageNameTooLongError => Some 312
  | TwoPaginationReferencesPassedError => Some 401
  | InvalidPaginationLimitError => Some 402
  | MissingUserAgentStringError => Some 901
  | IncorrectAuthorizationError => Some 902
  | _ => None
  end.

Definition own_http_status (c : cls) : option Z :=
  match c with
  | InvalidFormatError => Some BAD_REQUEST
  | UnknownDodoCodeError => Some NOT_FOUND
  | UnknownDesignCodeError => Some NOT_FOUND
  | UnknownAuthorIdError => Some NOT_FOUND
  | InvalidLayerNameError => Some BAD_REQUEST
  | CannotScaleThumbnailError => Some BAD_REQUEST
  | InvalidDesignError => Some BAD_REQUEST
  | InvalidPaletteError => Some BAD_REQUEST
  | UnknownImageIdError => Some NOT_FOUND
  | DeletionDeniedError => Some UNAUTHORIZED
  | InvalidLayerSizeError => Some BAD_REQUEST
  | TiledImageTooBigError => Some REQUEST_ENTITY_TOO_LARGE
  | InvalidImageArgument => Some BAD_REQUEST
  | InvalidLayerError => Some BAD_REQUEST
  | MissingLayerError => Some BAD_REQUEST
  | InvalidImageError => Some BAD_REQUEST
  | ImageNameTooLongError => Some BAD_REQUEST
  | InvalidPaginationError => Some BAD_REQUEST
  | MissingUserAgentStringError => Some BAD_REQUEST
  | IncorrectAuthorizationError => Some UNAUTHORIZED
  | _ => None
  end.

Definition own_message (c : cls) : option template :=
  match c with
  | UnknownDodoCodeError => Some [Lit "unknown dodo code"]
  | InvalidDodoCodeError => Some [Lit "invalid dodo code"]
  | UnknownDesignCodeError => Some [Lit "unknown design code"]
  | InvalidDesignCodeError => Some [Lit "invalid design code"]
  | UnknownAuthorIdError => Some [Lit "unknown author ID"]
  | InvalidAuthorIdError => Some [Lit "invalid author ID"]
  | InvalidScaleFactorError => Some [Lit "invalid scale factor"]
  | InvalidLayerIndexError => Some [Lit "Invalid layer index"]
  | InvalidLayerNameError => Some [Lit "Invalid layer name"]
  | InvalidProArgument => Some [Lit "invalid value for pro argument"]
  | CannotScaleThumbnailError => Some [Lit "cannot scale thumbnails"]
  | InvalidDesignError =>
    Some [Lit "Nintendo did not like your design for some reason. (Invalid name, perhaps?)"]
  | InvalidPaletteError =>
    Some [Lit ("the combined palette of all layers exceeds "
               +:+ pretty PALETTE_SIZE +:+ " colors")]
  | UnknownImageIdError => Some [Lit "unknown image ID"]
  | InvalidImageIdError => Some [Lit "Invalid image ID."]
  | DeletionDeniedError => Some [Lit "you do not own this image"]
  | InvalidLayerSizeError =>
    Some [Lit "layer "; Field "name" []; Lit " was not "; Field "width" [];
          Lit "×"; Field "height" []; Lit "."]
  | TiledImageTooBigError =>
    Some [Lit "The uploaded image would create "; Field "num_tiles" [];
          Lit (" tiles, which is greater than the limit, "
               +:+ pretty MAX_DESIGN_TILES +:+ ".")]
  | InvalidImageArgument =>
    Some [Lit "missing or invalid required image argument ";
          Field "argument_name" []]
  | MissingLayerError =>
    Some [Lit "Payload was missing one or more layers. First missing layer: ";
          Lit dquote; Field "layer" ["name"];
          Lit dquote]
  | InvalidImageError =>
    Some [Lit "One or more layers submitted represented an invalid image."]
  | ImageNameTooLongError =>
    Some [Lit "The name provided was too long. Maximum in this case is ";
          Field "max_len" []; Lit " characters."]
  | TwoPaginationReferencesPassedError =>
    Some [Lit "Only one of ";
          Lit dquote; Lit "before";
          Lit dquote; Lit " or ";
          Lit dquote; Lit "after";
          Lit dquote; Lit " may be specified."]
  | InvalidPaginationLimitError => Some [Lit "Invalid limit passed"]
  | MissingUserAgentStringError => Some [Lit "User-Agent header required"]
  | IncorrectAuthorizationError =>
    Some [Lit "invalid or incorrect Authorization header"]
  | _ => None
  end.

(** [regex.pattern] of the classes that compile one. *)
Definition own_regex_pattern (c : cls) : option string :=
  match c with
  | InvalidDodoCodeError => Some "[A-HJ-NP-Y0-9]{5}"
  | InvalidDesignCodeError => Some (re_pattern design_code_regex)
  | InvalidAuthorIdError => Some "\d{4}-?\d{4}-?\d{4}"
  | InvalidScaleFactorError => Some "[123456]"
  | InvalidProArgument => Some "[01]|(?:false|true)|[ft]"
  | InvalidImageIdError => Some "[0-9]+"
  | InvalidPaginationLimitError => Some "[0-9]+"
  | _ => None
  end.

(** Attribute lookup on a class: the first class of the resolution order
    whose body assigns the attribute. *)
Definition class_attr {A} (own : cls -> option A) (c : cls) : option A :=
  head (omap own (mro c)).

(** *** Attribute access and [str.format] *)

(** [self.name] for a name assigned by an [__init__]: none of the names read
    this way is also a class attribute. *)
Definition getattr (self : error) (name : string) : result value :=
  or_raise AttributeError (attrs self !! name).

(** Attribute access on a value held by an instance: only a layer has the
    attributes the module reads. *)
Definition getattr_value (v : value) (name : string) : result value :=
  match v with
  | VLayer n sz =>
    if bool_decide (name = "name") then Ok (VStr n)
    else if bool_decide (name = "size") then Ok (VPair sz.1 sz.2)
    else Raise AttributeError
  | _ => Raise AttributeError
  end.

Fixpoint getattr_path (v : value) (path : list string) : result value :=
  match path with
  | [] => Ok v
  | name :: path => let! v' := getattr_value v name in getattr_path v' path
  end.

Fixpoint format (t : template) (self : error) : result string :=
  match t with
  | [] => Ok EmptyString
  | Lit s :: t => let! rest := format t self in Ok (s +:+ rest)
  | Field attr path :: t =>
    let! v := getattr self attr in
    let! v := getattr_path v path in
    let! s := or_raise TypeError (py_str v) in
    let! rest := format t self in
    Ok (s +:+ rest)
  end.

(** *** [to_dict] *)

Definition pydict := gmap string value.

(** [d[k] = v], where [d] may be [None]. *)
Definition setitem (d : option pydict) (k : string) (v : value)
  : result (option pydict) :=
  match d with
  | Some d => Ok (Some (<[k := v]> d))
  | None => Raise TypeError
  end.

Definition py_mul (a b : value) : result value :=
  match a, b with
  | VInt x, VInt y => Ok (VInt (x * y))
  | _, _ => Raise TypeError
  end.

(** [to_dict] looked up along a resolution order: the first class of [chain]
    that defines the method runs, and its [super().to_dict()] continues with
    the classes after it.  The result is [None] where the method falls off its
    end without a [return]. *)
Fixpoint to_dict_from (chain : list cls) (self : error)
  : result (option pydict) :=
  match chain with
  | [] => Raise AttributeError
  | c :: super =>
    match c with
    | ACNHError =>
      let! message := or_raise AttributeError (class_attr own_message (klass self)) in
      let! text := format message self in
      let! code := or_raise AttributeError (class_attr own_code (klass self)) in
      let! status := or_raise AttributeError (class_attr own_http_status (klass self)) in
      Ok (Some (<["http_status" := VInt status]>
                 (<["error_code" := VInt code]> {["error" := VStr text]})))
    | InvalidFormatError =>
      let! d := to_dict_from super self in
      let! pat := or_raise AttributeError
                    (class_attr own_regex_pattern (klass self)) in
      let! d := setitem d "validation_regex" (VStr pat) in
      Ok d
    | InvalidLayerIndexError =>
      let! d := to_dict_from super self in
      let! n := getattr self "num_layers" in
      let! d := setitem d "num_layers" n in
      Ok None
    | InvalidLayerNameError =>
      let! d := to_dict_from super self in
      let! names := getattr self "valid_layer_names" in
      let! d := setitem d "valid_layer_names" names in
      Ok d
    | InvalidLayerSizeError =>
      let! d := to_dict_from super self in
      let! w := getattr self "width" in
      let! d := setitem d "expected_width" w in
      let! h := getattr self "height" in
      let! d := setitem d "expected_height" h in
      let! w := getattr self "width" in
      let! h := getattr self "height" in
      let! wh := py_mul w h in
      let! n := py_mul wh (VInt BYTES_PER_PIXEL) in
      let! d := setitem d "expected_byte_length" n in
      Ok d
    | InvalidImageArgument =>
      let! d := to_dict_from super self in
      let! a := getattr self "argument_name" in
      let! d := setitem d "argument_name" a in
      Ok d
    | InvalidLayerError =>
      let! d := to_dict_from super self in
      let! layer := getattr self "layer" in
      let! name := getattr_value layer "name" in
      let! d := setitem d "layer_name" name in
      let! layer := getattr self "layer" in
      let! size := getattr_value layer "size" in
      let! d := setitem d "layer_size" size in
      Ok d
    | ImageNameTooLongError =>
      let! d := to_dict_from super self in
      let! n := getattr self "max_len" in
      let! d := setitem d "max_length" n in
      Ok d
    | _ => to_dict_from super self
    end
  end.

Definition to_dict (self : error) : result (option pydict) :=
  to_dict_from (mro (klass self)) self.

(** *** Constructors *)

Definition new_InvalidLayerIndexError (num_layers : Z) : error :=
  {| klass := InvalidLayerIndexError;
     attrs := {["num_layers" := VInt num_layers]} |}.

Definition new_InvalidLayerNameError (external_layer_names : list string) : error :=
  {| klass := InvalidLayerNameError;
     attrs := {["valid_layer_names" := VStrList external_layer_names]} |}.

Definition new_InvalidLayerSizeError (name : string) (width height : Z) : error :=
  {| klass := InvalidLayerSizeError;
     attrs := <["height" := VInt height]>
               (<["width" := VInt width]> {["name" := VStr name]}) |}.

Definition new_InvalidImageArgument (argument_name : string) : error :=
  {| klass := InvalidImageArgument;
     attrs := {["argument_name" := VStr argument_name]} |}.

(** [InvalidLayerError.__init__], inherited by [MissingLayerError]. *)
Definition new_InvalidLayerError (c : cls) (name : string) (size : Z * Z) : error :=
  {| klass := c; attrs := {["layer" := VLayer name size]} |}.

Definition new_ImageNameTooLongError (max_len : Z) : error :=
  {| klass := ImageNameTooLongError;
     attrs := {["max_len" := VInt max_len]} |}.

Definition new_IncorrectAuthorizationError (path : option string) : error :=
  {| klass := IncorrectAuthorizationError;
     attrs := {["path" := from_option VStr VNone path]} |}.

(** *** Tile count and its budget *)

(** [width // WIDTH * height // HEIGHT]: the two operators have the same
    precedence and associate to the left. *)
Definition num_tiles (width height : Z) : Z :=
  (width / WIDTH * height) / HEIGHT.

(** [TiledImageTooBigError(img)], from [img.size]. *)
Definition new_TiledImageTooBigError (size : Z * Z) : error :=
  {| klass := TiledImageTooBigError;
     attrs := {["num_tiles" := VInt (num_tiles size.1 size.2)]} |}.

Definition TiledImageTooBigError_validate (size : Z * Z) : result unit :=
  let ex := new_TiledImageTooBigError size in
  let! n := getattr ex "num_tiles" in
  match n with
  | VInt n => if bool_decide (n > MAX_DESIGN_TILES) then Raise (ACNH ex) else Ok tt
  | _ => Raise TypeError
  end.

End Classes.

(** [InvalidFormatError.validate] at [cls = InvalidDesignCodeError]. *)
Definition InvalidDesignCodeError_validate (s : string) : result string :=
  if negb (fullmatch design_code_regex s)
  then Raise (ACNH (new InvalidDesignCodeError))
  else Ok s.

End Errors.

Export Errors.

(** * acnh/designs.py *)
Module Designs.

(** [enumerate(l)] *)
Definition enumerate {A} (l : list A) : list (Z * A) :=
  zip (seqZ 0 (Z.of_nat (length l))) l.

(** [{k: v for v, k in pairs}]: a later pair replaces an earlier one. *)
Definition dict_of_pairs (pairs : list (Z * ascii)) : gmap ascii Z :=
  foldl (fun d p => <[p.2 := p.1]> d) ∅ pairs.

(** [DESIGN_CODE_ALPHABET = {c: i for i, c in enumerate('0123456789BCDFGHJKLMNPQRSTVWXY')}] *)
Definition DESIGN_CODE_ALPHABET : gmap ascii Z :=
  dict_of_pairs (enumerate (list_ascii_of_string "0123456789BCDFGHJKLMNPQRSTVWXY")).

(** [s.replace('-', '')], as the characters that remain. *)
Definition remove_hyphens (s : string) : list ascii :=
  List.filter (fun c => negb (Ascii.eqb c "-")) (list_ascii_of_string s).

(** The body of [design_id] after [code] is computed: the loop over its
    characters, with [n] the accumulator.  [design_id] raises the
    [InvalidDesignCodeError] that [designs.py] declares next to it, which has
    the message and the regular expression of the class of [errors.py]; the
    two are one class here. *)
Fixpoint design_id_loop (code : list ascii) (n : Z) : result Z :=
  match code with
  | [] => Ok n
  | c :: code =>
    let n := n * 30 in
    match DESIGN_CODE_ALPHABET !! c with
    | Some v => design_id_loop code (n + v)
    | None => Raise (ACNH (new InvalidDesignCodeError))
    end
  end.

Definition design_id (pattern_code : string) : result Z :=
  let code := remove_hyphens pattern_code in
  design_id_loop code 0.

End Designs.

(** * acnh/designs/render.py *)
Module Render.

(** The document of one design, as far as rendering reads it: [mPalette] maps
    the text of a palette index to a colour and is read in the order of its
    items; [mData] maps the text of a layer index to the packed layer, a
    sequence of integers when iterated. *)
Record raw_image := {
  mPalette : list (string * Z);
  mData : gmap string (list Z);
}.

(** A [wand.image.Image] as far as it is used: its size and its pixels, four
    bytes (R, G, B, A) per pixel in row-major order. *)
Record Image := {
  width : Z;
  height : Z;
  pixels : list Z;
}.

(** [wand.image.Image(width=w, height=h)]: a blank, transparent canvas. *)
Definition new_Image (w h : Z) : Image :=
  {| width := w; height := h; pixels := replicate (Z.to_nat (w * h * 4)) 0 |}.

(** [im.import_pixels(channel_map=..., data=...)] of the Wand library, with
    its default region, the whole image, and its default storage, one byte a
    channel: the call raises [ValueError] unless [data] holds exactly
    [width * height * len(channel_map)] values, and otherwise replaces the
    pixels. *)
Definition import_pixels (im : Image) (channel_map : string) (data : list Z)
  : result Image :=
  let expected_len := width im * height im * Z.of_nat (String.length channel_map) in
  let given_len := Z.of_nat (length data) in
  if negb (bool_decide (expected_len = given_len)) then Raise ValueError
  else Ok {| width := width im; height := height im; pixels := data |}.

(** The [n] low base-256 digits of [z], most significant first. *)
Fixpoint big_endian (n : nat) (z : Z) : list Z :=
  match n with
  | O => []
  | S n => (big_endian n (z / 256) ++ [z mod 256])%list
  end.

(** [z.to_bytes(n, byteorder='big')] *)
Definition to_bytes (n : nat) (z : Z) : result (list Z) :=
  if bool_decide (0 <= z < 256 ^ Z.of_nat n) then Ok (big_endian n z)
  else Raise OverflowError.

Section Render.

Variables WIDTH HEIGHT : Z.

(** The built-in [int] applied to a key of [mPalette]; [None] stands for the
    [ValueError] it raises on text that is not a numeral. *)
Variable int : string -> option Z.

Fixpoint gen_palette_loop (items : list (string * Z)) (palette : gmap Z Z)
  : result (gmap Z Z) :=
  match items with
  | [] => Ok palette
  | (ind, color) :: items =>
    let! i := or_raise ValueError (int ind) in
    gen_palette_loop items (<[i := color]> palette)
  end.

Definition gen_palette (raw : raw_image) : result (gmap Z Z) :=
  let! palette := gen_palette_loop (mPalette raw) ∅ in
  (* implicit transparent *)
  Ok (<[15 := 0]> palette).

(** [out.write(palette[nibble].to_bytes(4, byteorder='big'))] *)
Definition write_nibble (palette : gmap Z Z) (nibble : Z) (out : list Z)
  : result (list Z) :=
  let! color := or_raise KeyError (palette !! nibble) in
  let! bs := to_bytes 4 color in
  Ok (out ++ bs)%list.

(** The loop of [_render_layer] over the bytes of the layer. *)
Fixpoint write_layer (palette : gmap Z Z) (layer : list Z) (out : list Z)
  : result (list Z) :=
  match layer with
  | [] => Ok out
  | byte :: layer =>
    let b1 := Z.land byte 15 in
    let b2 := Z.land (Z.shiftr byte 4) 15 in
    let! out := write_nibble palette b1 out in
    let! out := write_nibble palette b2 out in
    write_layer palette layer out
  end.

(** The parameter [palette] is rebound by the first statement. *)
Definition _render_layer (raw : raw_image) (palette : gmap Z Z) (layer : list Z)
  : result Image :=
  let! palette := gen_palette raw in
  let im := new_Image WIDTH HEIGHT in
  let! out := write_layer palette layer [] in
  import_pixels im "RGBA" out.

Definition render_layer (raw : raw_image) (layer_i : Z) : result Image :=
  match mData raw !! pretty layer_i with
  | None =>
    Raise (ACNH (new_InvalidLayerIndexError (Z.of_nat (size (mData raw)))))
  | Some layer =>
    let! palette := gen_palette raw in
    _render_layer raw palette layer
  end.

End Render.

(** [int] on the numerals a document uses for its keys: one or more ASCII
    decimal digits. *)
Definition digit_value (c : ascii) : option Z :=
  let n := Z.of_nat (nat_of_ascii c) in
  if bool_decide (48 <= n <= 57) then Some (n - 48) else None.

Fixpoint int_digits (s : string) (acc : Z) : option Z :=
  match s with
  | EmptyString => Some acc
  | String c s => d ← digit_value c; int_digits s (acc * 10 + d)
  end.

Definition int_decimal (s : string) : option Z :=
  match s with
  | EmptyString => None
  | _ => int_digits s 0
  end.

End Render.

(** * views/api.py: how a request decodes its design code *)
Module Views.

(** The first two steps of [design], [design_archive] and [design_layer]:
    [InvalidDesignCodeError.validate(design_code)], then
    [design_id(design_code)]. *)
Definition requested_design_id (design_code : string) : result Z :=
  let! checked := InvalidDesignCodeError_validate design_code in
  Designs.design_id design_code.

End Views.

(** * The written specification of the design code *)
Module Spec.

(** The alphabet, one character after another. *)
Definition alphabet : list ascii :=
  list_ascii_of_string "0123456789BCDFGHJKLMNPQRSTVWXY".

Definition in_alphabet (c : ascii) : Prop := c ∈ alphabet.

#[global] Instance in_alphabet_dec (c : ascii) : Decision (in_alphabet c).
Proof. unfold in_alphabet. apply _. Defined.

(** The position of [c] in [l], counted from 0. *)
Fixpoint position (c : ascii) (l : list ascii) : nat :=
  match l with
  | [] => 0
  | d :: l => if Ascii.eqb c d then 0%nat else S (position c l)
  end.

(** The value of a character is its position in the alphabet. *)
Definition value (c : ascii) : Z := Z.of_nat (position c alphabet).

(** The sum of [value c_i * 30^(e - i)] over the characters [c_0, c_1, ...]. *)
Definition weighted_sum_from (e : Z) (cs : list ascii) : Z :=
  foldr Z.add 0 (imap (fun i c => value c * 30 ^ (e - Z.of_nat i)) cs).


(** The three ways in which a code can be malformed. *)
Definition bad_character (code : string) : Prop :=
  exists c, c ∈ Designs.remove_hyphens code /\ ~ in_alphabet c.

Definition wrong_length (code : string) : Prop :=
  length (Designs.remove_hyphens code) <> 12%nat.

Definition grouped (code : string) : Prop :=
  exists a b c : list ascii,
    list_ascii_of_string code = (a ++ "-"%char :: b ++ "-"%char :: c)%list
    /\ length a = 4%nat /\ length b = 4%nat /\ length c = 4%nat.

(** Modelled from the spec: the encoder [design_code] of
    [acnh/designs/api.py], a module that is not among the sources.  The
    specification describes it as the "inverse base-30 expansion to exactly 12
    digits (zero-padded), grouped into three hyphen-separated 4-character
    segments". *)
Fixpoint base30 (n : nat) (id : Z) : list Z :=
  match n with
  | O => []
  | S n => (base30 n (id / 30) ++ [id mod 30])%list
  end.

Definition symbol (d : Z) : ascii := nth (Z.to_nat d) alphabet "0"%char.

Definition group (cs : list ascii) : list ascii :=
  (take 4 cs ++ "-"%char :: take 4 (drop 4 cs) ++ "-"%char :: drop 8 cs)%list.

Definition design_code (id : Z) : string :=
  string_of_list_ascii (group (symbol <$> base30 12 id)).

(** The two palette indices packed in a byte, in the order of the pixels
    they stand for: low nibble, then high nibble. *)
Definition nibbles (byte : Z) : list Z :=
  [Z.land byte 15; Z.land (Z.shiftr byte 4) 15].

(** The [k]-th pixel of a raster, as its four bytes R, G, B, A. *)
Definition pixel (im : Render.Image) (k : nat) : list Z :=
  take 4 (drop (4 * k) (Render.pixels im)).

(** The fully transparent colour: all four bytes 0, hence alpha 0. *)
Definition transparent : list Z := [0; 0; 0; 0].

(** The colour the document stores for palette index [n]: that of the last
    item of [mPalette] whose key reads as [n]. *)
Fixpoint stored_color (int : string -> option Z) (items : list (string * Z))
  (n : Z) : option Z :=
  match items with
  | [] => None
  | (k, color) :: items =>
    match stored_color int items n with
    | Some later => Some later
    | None => if bool_decide (int k = Some n) then Some color else None
    end
  end.

(** What unpacking promises for a layer and the raster made from it: two
    pixels for every byte, the one of the low nibble first, each with the
    colour the palette has for its nibble, which for a nibble other than 15 is
    the colour stored in the document. *)
Definition unpacked (int : string -> option Z) (raw : Render.raw_image)
  (palette : gmap Z Z) (layer : list Z) (im : Render.Image) : Prop :=
  length (Render.pixels im) = (4 * (2 * length layer))%nat
  /\ forall (i : nat) (byte : Z), layer !! i = Some byte ->
       exists lo hi : Z,
         palette !! Z.land byte 15 = Some lo
         /\ palette !! Z.land (Z.shiftr byte 4) 15 = Some hi
         /\ pixel im (2 * i) = Render.big_endian 4 lo
         /\ pixel im (2 * i + 1) = Render.big_endian 4 hi
         /\ (Z.land byte 15 <> 15 ->
             stored_color int (Render.mPalette raw) (Z.land byte 15) = Some lo)
         /\ (Z.land (Z.shiftr byte 4) 15 <> 15 ->
             stored_color int (Render.mPalette raw) (Z.land (Z.shiftr byte 4) 15)
             = Some hi).

(** Every pixel of the raster whose nibble in the layer is 15 is fully
    transparent. *)
Definition transparent_at_15 (layer : list Z) (im : Render.Image) : Prop :=
  forall (i : nat) (byte : Z), layer !! i = Some byte ->
    (Z.land byte 15 = 15 -> pixel im (2 * i) = transparent)
    /\ (Z.land (Z.shiftr byte 4) 15 = 15 -> pixel im (2 * i + 1) = transparent).

End Spec.

(** * Concrete documents *)
Module Examples.
Import Render.

(** A document whose palette stores opaque red for index 0 and a colour of
    its own for index 15. *)
Definition red_document : raw_image :=
  {| mPalette := [("0", 4278190335); ("15", 305419896)]; mData := ∅ |}.

(** The palette built from it. *)
Definition red_palette : gmap Z Z :=
  <[15 := 0]> (<[15 := 305419896]> (<[0 := 4278190335]> ∅)).

(** The rendering of the one byte [0xF0] on a canvas of two pixels: red, then
    transparent. *)
Definition red_raster : Image :=
  {| width := 2; height := 1; pixels := [255; 0; 0; 255; 0; 0; 0; 0] |}.

(** A document without a palette. *)
Definition bare_document : raw_image := {| mPalette := []; mData := ∅ |}.

End Examples.

(** * More concrete documents *)
Module MoreExamples.
Import Render.

(** The red document with a colour for an index that no nibble can be, and
    without a colour of its own for index 15. *)
Definition red_variant : raw_image :=
  {| mPalette := [("16", 7); ("0", 4278190335)]; mData := ∅ |}.

Definition red_variant_palette : gmap Z Z :=
  <[15 := 0]> (<[0 := 4278190335]> (<[16 := 7]> ∅)).

End MoreExamples.

(** * More about the error classes *)
Module ErrorsMore.

(** Whether instances of the class are built with arguments: the class or one
    of its bases has an [__init__] with a parameter that has no default.
    [IncorrectAuthorizationError] has an [__init__] too, but its parameter
    defaults to [None]. *)
Definition requires_arguments (c : cls) : bool :=
  match c with
  | InvalidLayerIndexError | InvalidLayerNameError | InvalidLayerSizeError
  | TiledImageTooBigError | InvalidImageArgument | InvalidLayerError
  | MissingLayerError | ImageNameTooLongError => true
  | _ => false
  end.

End ErrorsMore.

(** * Regular expressions of the format errors *)
Module Regex.

(** An item between the brackets of a set: one character or a range. *)
Inductive set_item :=
  | One (c : ascii)
  | Range (lo hi : ascii).

(** The syntax of the expressions that [errors.py] compiles without the
    [IGNORECASE] flag.  [RxFail] and [RxEps], the expressions of no string
    and of the empty string, and [RxStar] are not written in the source:
    they arise when an expression is matched. *)
Inductive rx :=
  | RxFail
  | RxEps
  | RxSet (items : list set_item)   (* [items] *)
  | RxDigit                         (* \d, under re.ASCII *)
  | RxChar (c : ascii)              (* a literal character *)
  | RxCat (a b : rx)                (* ab *)
  | RxAlt (a b : rx)                (* a|b *)
  | RxGroup (a : rx)                (* (?:a) *)
  | RxOpt (a : rx)                  (* a? *)
  | RxPlus (a : rx)                 (* a+ *)
  | RxStar (a : rx)                 (* a* *)
  | RxRepeat (a : rx) (n : nat).    (* a{n} *)

Definition item_pattern (i : set_item) : string :=
  match i with
  | One c => String c EmptyString
  | Range lo hi => String lo (String "-" (String hi EmptyString))
  end.

(** The text of an expression, as [re.compile] is given it. *)
Fixpoint rx_pattern (r : rx) : string :=
  match r with
  | RxFail => "(?!)"
  | RxEps => EmptyString
  | RxSet items => "[" +:+ foldr (fun i s => item_pattern i +:+ s) "]" items
  | RxDigit => "\d"
  | RxChar c => String c EmptyString
  | RxCat a b => rx_pattern a +:+ rx_pattern b
  | RxAlt a b => rx_pattern a +:+ "|" +:+ rx_pattern b
  | RxGroup a => "(?:" +:+ rx_pattern a +:+ ")"
  | RxOpt a => rx_pattern a +:+ "?"
  | RxPlus a => rx_pattern a +:+ "+"
  | RxStar a => rx_pattern a +:+ "*"
  | RxRepeat a n => rx_pattern a +:+ "{" +:+ pretty n +:+ "}"
  end.

Definition code (c : ascii) : N := N_of_ascii c.

Definition item_mem (c : ascii) (i : set_item) : bool :=
  match i with
  | One d => Ascii.eqb c d
  | Range lo hi => (code lo <=? code c)%N && (code c <=? code hi)%N
  end.

Definition set_mem (c : ascii) (items : list set_item) : bool :=
  existsb (item_mem c) items.

Definition is_digit (c : ascii) : bool := item_mem c (Range "0" "9").

(** Whether the expression matches the empty string. *)
Fixpoint nullable (r : rx) : bool :=
  match r with
  | RxFail => false
  | RxEps => true
  | RxSet _ | RxDigit | RxChar _ => false
  | RxCat a b => nullable a && nullable b
  | RxAlt a b => nullable a || nullable b
  | RxGroup a => nullable a
  | RxOpt _ => true
  | RxPlus a => nullable a
  | RxStar _ => true
  | RxRepeat a n => match n with O => true | S _ => nullable a end
  end.

(** The expression of what may follow the character [c] in a match. *)
Fixpoint deriv (c : ascii) (r : rx) : rx :=
  match r with
  | RxFail | RxEps => RxFail
  | RxSet items => if set_mem c items then RxEps else RxFail
  | RxDigit => if is_digit c then RxEps else RxFail
  | RxChar d => if Ascii.eqb c d then RxEps else RxFail
  | RxCat a b =>
    RxAlt (RxCat (deriv c a) b) (if nullable a then deriv c b else RxFail)
  | RxAlt a b => RxAlt (deriv c a) (deriv c b)
  | RxGroup a => deriv c a
  | RxOpt a => deriv c a
  | RxPlus a => RxCat (deriv c a) (RxStar a)
  | RxStar a => RxCat (deriv c a) (RxStar a)
  | RxRepeat a n =>
    (fix go (n : nat) : rx :=
       match n with
       | O => RxFail
       | S m => RxAlt (RxCat (deriv c a) (RxRepeat a m))
                      (if nullable a then go m else RxFail)
       end) n
  end.

(** Whether the whole of [w] matches the expression.  The expressions have
    neither backreferences nor lookarounds, so that [fullmatch] succeeds
    exactly when the whole string is a string of the expression, whatever the
    order in which a matcher tries the alternatives; this one takes the
    derivative of the expression by each character in turn. *)
Definition matches (r : rx) (w : list ascii) : bool :=
  nullable (foldl (fun r c => deriv c r) r w).

(** [r.fullmatch(s)] as a truth value. *)
Definition fullmatch (r : rx) (s : string) : bool :=
  matches r (list_ascii_of_string s).

(** The strings of an expression. *)
Fixpoint lang (r : rx) (w : list ascii) : Prop :=
  match r with
  | RxFail => False
  | RxEps => w = []
  | RxSet items => exists c, w = [c] /\ set_mem c items = true
  | RxDigit => exists c, w = [c] /\ is_digit c = true
  | RxChar d => w = [d]
  | RxCat a b => exists u v, w = (u ++ v)%list /\ lang a u /\ lang b v
  | RxAlt a b => lang a w \/ lang b w
  | RxGroup a => lang a w
  | RxOpt a => w = [] \/ lang a w
  | RxPlus a => exists ws, ws <> [] /\ w = concat ws /\ Forall (lang a) ws
  | RxStar a => exists ws, w = concat ws /\ Forall (lang a) ws
  | RxRepeat a n =>
    exists ws, length ws = n /\ w = concat ws /\ Forall (lang a) ws
  end.

(** [InvalidFormatError.validate], for a class [c] whose [regex] is [r]. *)
Definition validate (r : rx) (c : cls) (s : string) : result string :=
  if negb (fullmatch r s) then Raise (ACNH (new c)) else Ok s.

(** The expressions of the classes. *)
Definition dodo_code_regex : rx :=
  RxRepeat (RxSet [Range "A" "H"; Range "J" "N"; Range "P" "Y"; Range "0" "9"]) 5.

Definition design_code_regex : rx :=
  let segment :=
    RxRepeat (RxSet (One <$> list_ascii_of_string Errors.DESIGN_CODE_ALPHABET)) 4 in
  RxCat segment (RxCat (RxChar "-") (RxCat segment (RxCat (RxChar "-") segment))).

Definition author_id_regex : rx :=
  RxCat (RxRepeat RxDigit 4)
    (RxCat (RxOpt (RxChar "-"))
       (RxCat (RxRepeat RxDigit 4)
          (RxCat (RxOpt (RxChar "-")) (RxRepeat RxDigit 4)))).

Definition scale_factor_regex : rx :=
  RxSet [One "1"; One "2"; One "3"; One "4"; One "5"; One "6"].

Definition image_id_regex : rx := RxPlus (RxSet [Range "0" "9"]).

Definition pagination_limit_regex : rx := RxPlus (RxSet [Range "0" "9"]).

(** The expression of a class; [InvalidProArgument] is left out, its
    expression being compiled with [IGNORECASE]. *)
Definition class_regex (c : cls) : option rx :=
  match c with
  | InvalidDodoCodeError => Some dodo_code_regex
  | InvalidDesignCodeError => Some design_code_regex
  | InvalidAuthorIdError => Some author_id_regex
  | InvalidScaleFactorError => Some scale_factor_regex
  | InvalidImageIdError => Some image_id_regex
  | InvalidPaginationLimitError => Some pagination_limit_regex
  | _ => None
  end.

End Regex.

(** * How the views read a request *)
Module Requests.
Import Regex.

(** The values of the query string, [request.args]. *)
Definition arguments := gmap string string.


(** Four digits, and a hyphen that may be left out. *)
Definition four_digits (w : list ascii) : Prop :=
  length w = 4%nat /\ Forall (fun c => is_digit c = true) w.

Definition optional_hyphen (w : list ascii) : Prop :=
  w = [] \/ w = ["-"%char].

(** The shape of an author id: three groups of four digits, each of the two
    hyphens between them optional. *)
Definition author_id_shape (s : string) : Prop :=
  exists a h1 b h2 c : list ascii,
    list_ascii_of_string s = (a ++ h1 ++ b ++ h2 ++ c)%list
    /\ four_digits a /\ optional_hyphen h1 /\ four_digits b
    /\ optional_hyphen h2 /\ four_digits c.

(** The characters of a dodo code. *)
Definition dodo_alphabet : list ascii :=
  list_ascii_of_string "ABCDEFGHJKLMNPQRSTUVWXY0123456789".

Definition dodo_code_shape (s : string) : Prop :=
  length (list_ascii_of_string s) = 5%nat
  /\ Forall (fun c => c ∈ dodo_alphabet) (list_ascii_of_string s).

(** The texts of the scale factors. *)
Definition scale_factors : list string := ["1"; "2"; "3"; "4"; "5"; "6"].

Section Requests.

(** The built-in [int] on text; [None] stands for its [ValueError]. *)
Variable int : string -> option Z.

(** The scaler of [utils], which is not among the sources. *)
Variable xbrz_scale_wand_in_subprocess : Render.Image -> Z -> result Render.Image.

(** [get_scale_factor] of [views/api.py].  The class
    [InvalidScaleFactorError] that the view declares has the expression of
    the class of [errors.py]; the two are one class here. *)
Definition get_scale_factor (args : arguments) : result Z :=
  let scale_factor := default "1" (args !! "scale") in
  let! checked := validate scale_factor_regex InvalidScaleFactorError scale_factor in
  or_raise ValueError (int scale_factor).

Definition maybe_scale (args : arguments) (image : Render.Image)
  : result Render.Image :=
  let! scale_factor := get_scale_factor args in
  if bool_decide (scale_factor = 1) then Ok image
  else xbrz_scale_wand_in_subprocess image scale_factor.


(** [int(InvalidAuthorIdError.validate(author_id).replace('-', ''))], the
    first statement of [designs] in [views/frontend.py], with the class of
    [errors.py]. *)
Definition requested_author_id (author_id : string) : result Z :=
  let! checked := validate author_id_regex InvalidAuthorIdError author_id in
  or_raise ValueError (int (string_of_list_ascii (Designs.remove_hyphens checked))).

End Requests.

Section Handlers.

Variables PALETTE_SIZE MAX_DESIGN_TILES BYTES_PER_PIXEL : Z.

(** The response of [handle_acnh_exception] in [views/api.py]: its status
    and the dictionary that [json.dumps] is given. *)
Record response := {
  status_code : value;
  data : pydict;
  content_type : string;
}.

(** [d[k]] for a [d] that may be [None]. *)
Definition getitem (d : option pydict) (k : string) : result value :=
  match d with
  | Some d => or_raise KeyError (d !! k)
  | None => Raise TypeError
  end.

Definition handle_acnh_exception (ex : error) : result response :=
  let! d := to_dict PALETTE_SIZE MAX_DESIGN_TILES BYTES_PER_PIXEL ex in
  let! status := getitem d "http_status" in
  match d with
  | Some d =>
    Ok {| status_code := status; data := d; content_type := "application/json" |}
  | None => Raise TypeError
  end.

(** [handle_acnh_exception] in [views/frontend.py]: the message given to the
    template, and the status. *)
Definition handle_acnh_exception_frontend (ex : error) : result (value * value) :=
  let! d := to_dict PALETTE_SIZE MAX_DESIGN_TILES BYTES_PER_PIXEL ex in
  let! message := getitem d "error" in
  let! status := getitem d "http_status" in
  Ok (message, status).

End Handlers.

End Requests.

(** * The name of an image *)
Module Names.

(** A design as [ImageNameTooLongError.validate] reads it: the sizes of its
    layer images, by the name of the layer, and its name, a [str] whose
    length is its number of code points, or [None]. *)
Record design := {
  layer_images : gmap string (Z * Z);
  design_name : option (list N);
}.

Section Names.

Variables MAX_NAME_LEN WIDTH HEIGHT : Z.

(** The length of the formatted text, a space and the tile count of the
    size of the image: what the number of a tile takes of a name. *)
Definition overhead (size : Z * Z) : Z :=
  Z.of_nat (String.length (" " +:+ pretty (num_tiles WIDTH HEIGHT size.1 size.2))).

Definition ImageNameTooLongError_validate (d : design) : result design :=
  let! size := or_raise KeyError (layer_images d !! "0") in
  let overhead := overhead size in
  match design_name d with
  | Some name =>
    if bool_decide (Z.of_nat (length name) + overhead > MAX_NAME_LEN)
    then Raise (ACNH (new_ImageNameTooLongError (MAX_NAME_LEN - overhead)))
    else Ok d
  | None => Ok d
  end.

End Names.

(** The design with another name. *)
Definition rename (d : design) (name : list N) : design :=
  {| layer_images := layer_images d; design_name := Some name |}.

(** A design of one tile with a name of three characters. *)
Definition small_design : design :=
  {| layer_images := {["0" := (32, 32)]};
     design_name := Some [65%N; 66%N; 67%N] |}.

End Names.

(** * All the layers of a document *)
Module RenderAll.
Import Render.

Section RenderAll.

Variables WIDTH HEIGHT : Z.
Variable int : string -> option Z.

(** The loop of the generator [render_layers] over [items], the items of
    [raw_image['mData']] in the order of the dictionary: what it yields, and
    the exception that ends it, if one does. *)
Fixpoint render_layers_loop (raw : raw_image) (palette : gmap Z Z)
  (items : list (string * list Z)) : list (Z * Image) * option exn :=
  match items with
  | [] => ([], None)
  | (layer_i, layer) :: items =>
    match int layer_i with
    | None => ([], Some ValueError)
    | Some i =>
      match _render_layer WIDTH HEIGHT int raw palette layer with
      | Raise e => ([], Some e)
      | Ok im =>
        let rest := render_layers_loop raw palette items in
        ((i, im) :: rest.1, rest.2)
      end
    end
  end.

Definition render_layers (raw : raw_image) (items : list (string * list Z))
  : list (Z * Image) * option exn :=
  match gen_palette int raw with
  | Raise e => ([], Some e)
  | Ok palette => render_layers_loop raw palette items
  end.

End RenderAll.

(** That [items] are the items of the dictionary [mData] of the document,
    in some order. *)
Definition items_of (raw : raw_image) (items : list (string * list Z)) : Prop :=
  NoDup items.*1 /\ mData raw = list_to_map items.

(** A document with one layer of one byte for a tile of two pixels. *)
Definition one_layer : raw_image :=
  {| mPalette := [("0", 4278190335)]; mData := {["0" := [240]]} |}.

End RenderAll.
(** * Properties of the design code *)
Module DesignsFacts.
Import Designs Spec.

(** The dictionary of [designs.py] holds exactly the characters of the
    alphabet, each with its position. *)
Lemma alphabet_lookup (c : ascii) :
  DESIGN_CODE_ALPHABET !! c
  = if str_mem c Errors.DESIGN_CODE_ALPHABET then Some (value c) else None.
Proof.
  destruct c as [[] [] [] [] [] [] [] []]; vm_compute; reflexivity.
Qed.

Lemma str_mem_alphabet (c : ascii) :
  str_mem c Errors.DESIGN_CODE_ALPHABET = true <-> in_alphabet c.
Proof.
  unfold in_alphabet, alphabet, Errors.DESIGN_CODE_ALPHABET.
  generalize "0123456789BCDFGHJKLMNPQRSTVWXY".
  intros s; induction s as [|d s IH]; simpl.
  - split; [discriminate | intros H; inversion H].
  - destruct (Ascii.eqb_spec c d) as [->|Hne].
    + split; [intros _; constructor | reflexivity].
    + rewrite IH. split; [intros H; by constructor |].
      intros H; inversion H; subst; [congruence | assumption].
Qed.

Lemma alphabet_lookup_in (c : ascii) :
  in_alphabet c -> DESIGN_CODE_ALPHABET !! c = Some (value c).
Proof.
  intros H. apply str_mem_alphabet in H. by rewrite alphabet_lookup, H.
Qed.

Lemma alphabet_lookup_out (c : ascii) :
  ~ in_alphabet c -> DESIGN_CODE_ALPHABET !! c = None.
Proof.
  intros H. rewrite alphabet_lookup.
  destruct (str_mem c Errors.DESIGN_CODE_ALPHABET) eqn:E; [|done].
  by apply str_mem_alphabet in E.
Qed.

Lemma value_range (c : ascii) : in_alphabet c -> 0 <= value c < 30.
Proof.
  intros H. apply str_mem_alphabet in H. revert H.
  destruct c as [[] [] [] [] [] [] [] []]; vm_compute; intuition congruence.
Qed.

Lemma hyphen_not_in_alphabet : ~ in_alphabet "-"%char.
Proof. intros H. apply str_mem_alphabet in H. vm_compute in H. discriminate. Qed.

(** *** The loop of [design_id] *)

Lemma weighted_sum_from_cons e c cs :
  weighted_sum_from e (c :: cs) = value c * 30 ^ e + weighted_sum_from (e - 1) cs.
Proof.
  unfold weighted_sum_from. simpl. rewrite Z.sub_0_r. f_equal. f_equal.
  apply imap_ext. intros i x _. simpl. do 2 f_equal. lia.
Qed.

Lemma design_id_loop_sum (cs : list ascii) (n : Z) :
  Forall in_alphabet cs ->
  design_id_loop cs n
  = Ok (n * 30 ^ Z.of_nat (length cs)
        + weighted_sum_from (Z.of_nat (length cs) - 1) cs).
Proof.
  intros H. revert n. induction H as [|c cs Hc _ IH]; intros n.
  - simpl. f_equal. unfold weighted_sum_from. simpl. lia.
  - cbn [design_id_loop]. rewrite (alphabet_lookup_in c Hc), IH.
    rewrite weighted_sum_from_cons. f_equal.
    rewrite length_cons, Nat2Z.inj_succ.
    replace (Z.succ (Z.of_nat (length cs)) - 1) with (Z.of_nat (length cs)) by lia.
    rewrite Z.pow_succ_r by lia. lia.
Qed.

Lemma design_id_loop_rejects (cs : list ascii) (n : Z) :
  (exists c, c ∈ cs /\ ~ in_alphabet c)
  -> design_id_loop cs n = Raise (ACNH (new InvalidDesignCodeError)).
Proof.
  revert n. induction cs as [|c cs IH]; intros n [d [Hd Hout]].
  - inversion Hd.
  - cbn [design_id_loop]. destruct (decide (in_alphabet c)) as [Hc|Hc].
    + rewrite (alphabet_lookup_in c Hc). apply IH. exists d. split; [|done].
      inversion Hd; subst; [contradiction | assumption].
    + by rewrite (alphabet_lookup_out c Hc).
Qed.

Lemma all_or_bad (cs : list ascii) :
  Forall in_alphabet cs \/ exists c, c ∈ cs /\ ~ in_alphabet c.
Proof.
  destruct (decide (Forall in_alphabet cs)) as [H|H]; [by left | right].
  apply not_Forall_Exists in H; [|apply _].
  apply Exists_exists in H. exact H.
Qed.

(** [design_id] raises exactly when a character other than a hyphen is
    outside the alphabet; what it raises is [InvalidDesignCodeError]. *)
Lemma design_id_raises_iff (code : string) (e : exn) :
  design_id code = Raise e
  <-> e = ACNH (new InvalidDesignCodeError) /\ bad_character code.
Proof.
  unfold design_id, bad_character.
  destruct (all_or_bad (remove_hyphens code)) as [Hall|Hbad].
  - rewrite design_id_loop_sum by done. split; [discriminate|].
    intros [_ [c [Hc Hout]]]. rewrite Forall_forall in Hall. naive_solver.
  - rewrite design_id_loop_rejects by done. split.
    + intros [= <-]. done.
    + by intros [-> _].
Qed.

Lemma design_id_loop_app (l1 l2 : list ascii) (n : Z) :
  design_id_loop (l1 ++ l2) n
  = let! m := design_id_loop l1 n in design_id_loop l2 m.
Proof.
  revert n. induction l1 as [|c l1 IH]; intros n; [done|].
  cbn [app design_id_loop]. destruct (DESIGN_CODE_ALPHABET !! c); [apply IH | done].
Qed.

(** *** The encoder of the specification *)

Lemma nth_symbol_value (n : nat) :
  (n < 30)%nat ->
  in_alphabet (nth n alphabet "0"%char)
  /\ value (nth n alphabet "0"%char) = Z.of_nat n.
Proof.
  intros Hn.
  do 30 (destruct n as [|n];
         [split; [apply str_mem_alphabet|]; vm_compute; reflexivity|]).
  lia.
Qed.

Lemma symbol_value (d : Z) :
  0 <= d < 30 -> in_alphabet (symbol d) /\ value (symbol d) = d.
Proof.
  intros Hd. unfold symbol.
  destruct (nth_symbol_value (Z.to_nat d)) as [Hin Hval]; [lia|].
  split; [exact Hin|]. rewrite Hval. lia.
Qed.

Lemma base30_length (k : nat) (id : Z) : length (base30 k id) = k.
Proof.
  revert id. induction k as [|k IH]; intros id; [done|].
  simpl. rewrite length_app, IH. simpl. lia.
Qed.

Lemma base30_symbols (k : nat) (id : Z) :
  Forall in_alphabet (symbol <$> base30 k id).
Proof.
  revert id. induction k as [|k IH]; intros id; [constructor|].
  simpl. rewrite fmap_app. apply Forall_app. split; [apply IH|].
  constructor; [|constructor].
  destruct (symbol_value (id mod 30)) as [Hin _];
    [apply Z.mod_pos_bound; lia | exact Hin].
Qed.

(** Decoding the [k] symbols of [id] continues a computation that has read
    [n] so far with the [k] low base-30 digits of [id]. *)
Lemma design_id_loop_base30 (k : nat) (id n : Z) :
  design_id_loop (symbol <$> base30 k id) n
  = Ok (n * 30 ^ Z.of_nat k + id mod 30 ^ Z.of_nat k).
Proof.
  revert id n. induction k as [|k IH]; intros id n.
  - simpl. f_equal. rewrite Z.mod_1_r. lia.
  - cbn [base30]. rewrite fmap_app, design_id_loop_app, IH. cbn [bind fmap list_fmap].
    cbn [design_id_loop].
    destruct (symbol_value (id mod 30)) as [Hin Hval];
      [apply Z.mod_pos_bound; lia|].
    rewrite (alphabet_lookup_in _ Hin), Hval. f_equal.
    rewrite Nat2Z.inj_succ, Z.pow_succ_r by lia.
    rewrite (Z.rem_mul_r id 30 (30 ^ Z.of_nat k)) by lia. lia.
Qed.

Lemma filter_all {A} (f : A -> bool) (l : list A) :
  Forall (fun x => f x = true) l -> List.filter f l = l.
Proof.
  induction 1 as [|x l Hx _ IH]; [done|]. simpl. by rewrite Hx, IH.
Qed.

Lemma not_hyphen (c : ascii) : in_alphabet c -> negb (Ascii.eqb c "-") = true.
Proof.
  intros H. destruct (Ascii.eqb_spec c "-"%char) as [->|]; [|done].
  by destruct hyphen_not_in_alphabet.
Qed.

Lemma remove_hyphens_chars (l : list ascii) :
  remove_hyphens (string_of_list_ascii l)
  = List.filter (fun c => negb (Ascii.eqb c "-")) l.
Proof. unfold remove_hyphens. by rewrite list_ascii_of_string_of_list_ascii. Qed.

Lemma remove_hyphens_group (cs : list ascii) :
  Forall in_alphabet cs ->
  remove_hyphens (string_of_list_ascii (group cs)) = cs.
Proof.
  intros H. rewrite remove_hyphens_chars. unfold group.
  assert (forall l, Forall in_alphabet l ->
                    List.filter (fun c => negb (Ascii.eqb c "-")) l = l) as Hf.
  { intros l Hl. apply filter_all. eapply Forall_impl; [exact Hl|].
    intros c Hc. by apply not_hyphen. }
  rewrite !List.filter_app. cbn [List.filter Ascii.eqb]. simpl negb.
  rewrite !List.filter_app. cbn [List.filter]. simpl negb.
  rewrite !Hf by (try apply Forall_take; try apply Forall_drop;
                  try apply Forall_take; try apply Forall_drop; done).
  replace (drop 8 cs) with (drop 4 (drop 4 cs)) by (by rewrite drop_drop).
  by rewrite !take_drop.
Qed.

(** *** The regular expression of [InvalidDesignCodeError] *)

Lemma design_code_regex_eq :
  design_code_regex
  = ReCat design_code_segment
      (ReCat (ReChar "-") (ReCat design_code_segment
         (ReCat (ReChar "-") design_code_segment))).
Proof. reflexivity. Qed.

Lemma re_match_set (l l' : list ascii) :
  re_match (ReSet Errors.DESIGN_CODE_ALPHABET) l = Some l'
  <-> exists c, l = c :: l' /\ in_alphabet c.
Proof.
  destruct l as [|c l]; cbn [re_match].
  - split; [discriminate | intros [c [? _]]; discriminate].
  - destruct (str_mem c Errors.DESIGN_CODE_ALPHABET) eqn:E.
    + apply str_mem_alphabet in E. split.
      * intros [= ->]. by exists c.
      * intros [d [[= -> ->] _]]. done.
    + split; [discriminate|]. intros [d [[= -> ->] Hd]].
      apply str_mem_alphabet in Hd. congruence.
Qed.

Lemma re_match_segment (l l' : list ascii) :
  re_match design_code_segment l = Some l'
  <-> exists a, l = (a ++ l')%list /\ length a = 4%nat /\ Forall in_alphabet a.
Proof.
  unfold design_code_segment. cbn [re_match iter_match].
  split.
  - intros H.
    apply bind_Some in H as [l1 [H1 H]]. apply bind_Some in H as [l2 [H2 H]].
    apply bind_Some in H as [l3 [H3 H]]. apply bind_Some in H as [l4 [H4 H]].
    injection H as ->.
    apply re_match_set in H1 as [c1 [-> ?]]. apply re_match_set in H2 as [c2 [-> ?]].
    apply re_match_set in H3 as [c3 [-> ?]]. apply re_match_set in H4 as [c4 [-> ?]].
    exists [c1; c2; c3; c4]. split; [done|]. split; [done|].
    by repeat (constructor; [assumption|]).
  - intros [a [-> [Hlen Hall]]].
    destruct a as [|c1 [|c2 [|c3 [|c4 [|]]]]]; try discriminate.
    inversion Hall as [|? ? I1 Hall1]; subst.
    inversion Hall1 as [|? ? I2 Hall2]; subst.
    inversion Hall2 as [|? ? I3 Hall3]; subst.
    inversion Hall3 as [|? ? I4 _]; subst.
    apply str_mem_alphabet in I1, I2, I3, I4.
    cbn [app re_match]. rewrite I1. cbn [mbind option_bind]. cbn [re_match].
    rewrite I2. cbn [mbind option_bind]. cbn [re_match].
    rewrite I3. cbn [mbind option_bind]. cbn [re_match].
    by rewrite I4.
Qed.

Lemma re_match_hyphen (l l' : list ascii) :
  re_match (ReChar "-") l = Some l' <-> l = "-"%char :: l'.
Proof.
  destruct l as [|d l]; cbn [re_match]; [split; discriminate|].
  destruct (Ascii.eqb_spec "-"%char d) as [<-|Hne].
  - split; intros [= ->]; done.
  - split; [discriminate | intros [= ? ?]; congruence].
Qed.

(** A code matches the expression in full exactly when it is three groups of
    four characters of the alphabet, separated by hyphens. *)
Lemma fullmatch_iff (code : string) :
  fullmatch design_code_regex code = true
  <-> exists a b c : list ascii,
        list_ascii_of_string code = (a ++ "-"%char :: b ++ "-"%char :: c)%list
        /\ (length a = 4 /\ length b = 4 /\ length c = 4)%nat
        /\ Forall in_alphabet a /\ Forall in_alphabet b /\ Forall in_alphabet c.
Proof.
  unfold fullmatch. rewrite bool_decide_eq_true, design_code_regex_eq.
  generalize (list_ascii_of_string code). intros l.
  cbn [re_match]. split.
  - intros H.
    apply bind_Some in H as [l1 [H1 H]]. apply bind_Some in H as [l2 [H2 H]].
    apply bind_Some in H as [l3 [H3 H]]. apply bind_Some in H as [l4 [H4 H]].
    apply re_match_segment in H1 as [a [-> [? ?]]].
    apply re_match_hyphen in H2 as ->.
    apply re_match_segment in H3 as [b [-> [? ?]]].
    apply re_match_hyphen in H4 as ->.
    apply re_match_segment in H as [c [-> [? ?]]].
    exists a, b, c. rewrite app_nil_r. done.
  - intros [a [b [c [-> [[Ha [Hb Hc]] [Fa [Fb Fc]]]]]]].
    apply bind_Some. eexists. split.
    { apply re_match_segment. by exists a. }
    apply bind_Some. eexists. split; [reflexivity|].
    apply bind_Some. eexists. split.
    { apply re_match_segment. by exists b. }
    apply bind_Some. eexists. split; [reflexivity|].
    apply re_match_segment. exists c. by rewrite app_nil_r.
Qed.

Lemma filter_length_eq {A} (f : A -> bool) (l : list A) :
  length (List.filter f l) = length l -> List.filter f l = l.
Proof.
  induction l as [|x l IH]; [done|]. simpl.
  pose proof (List.filter_length_le f l).
  destruct (f x); simpl; intros Hlen; [f_equal; apply IH; lia | lia].
Qed.

Lemma filter_eq_Forall {A} (f : A -> bool) (l : list A) :
  List.filter f l = l -> Forall (fun x => f x = true) l.
Proof.
  intros H. apply Forall_forall. intros x Hx.
  apply list_elem_of_In in Hx. rewrite <- H in Hx.
  by apply List.filter_In in Hx as [_ ?].
Qed.

(** The three conditions of the specification, together, say that the code
    matches the expression in full. *)
Lemma fullmatch_conditions (code : string) :
  fullmatch design_code_regex code = true
  <-> ~ bad_character code /\ ~ wrong_length code /\ grouped code.
Proof.
  rewrite fullmatch_iff. unfold bad_character, wrong_length, grouped, remove_hyphens.
  set (keep := fun c => negb (Ascii.eqb c "-")).
  assert (forall l, Forall in_alphabet l -> List.filter keep l = l) as Hkeep.
  { intros l Hl. apply filter_all. eapply Forall_impl; [exact Hl|].
    intros c Hc. by apply not_hyphen. }
  assert (forall l1 l2 l3 : list ascii,
    List.filter keep (l1 ++ "-"%char :: l2 ++ "-"%char :: l3)
    = (List.filter keep l1 ++ List.filter keep l2 ++ List.filter keep l3)%list)
    as Hsplit.
  { intros. rewrite List.filter_app. cbn [List.filter]. unfold keep at 2. simpl.
    rewrite List.filter_app. cbn [List.filter]. unfold keep at 3. by simpl. }
  split.
  - intros [a [b [c [E [[Ha [Hb Hc]] [Fa [Fb Fc]]]]]]]. rewrite E, Hsplit.
    rewrite !Hkeep by done. split; [|split].
    + intros [d [Hd Hout]]. apply Hout.
      rewrite !elem_of_app in Hd. rewrite Forall_forall in Fa, Fb, Fc.
      destruct Hd as [Hd|[Hd|Hd]]; auto.
    + intros Hlen. apply Hlen. rewrite !length_app. lia.
    + by exists a, b, c.
  - intros [Hbad [Hlen [a [b [c [E [Ha [Hb Hc]]]]]]]].
    exists a, b, c. split; [done|]. split; [done|].
    rewrite E, Hsplit in Hbad, Hlen.
    assert (length (List.filter keep a ++ List.filter keep b
                    ++ List.filter keep c) = 12%nat) as Hl by lia.
    rewrite !length_app in Hl.
    pose proof (List.filter_length_le keep a).
    pose proof (List.filter_length_le keep b).
    pose proof (List.filter_length_le keep c).
    assert (List.filter keep a = a) as Ea by (apply filter_length_eq; lia).
    assert (List.filter keep b = b) as Eb by (apply filter_length_eq; lia).
    assert (List.filter keep c = c) as Ec by (apply filter_length_eq; lia).
    rewrite Ea, Eb, Ec in Hbad.
    assert (forall d, d ∈ (a ++ b ++ c)%list -> in_alphabet d) as Hin.
    { intros d Hd. destruct (decide (in_alphabet d)); [done|].
      destruct Hbad. by exists d. }
    repeat split; apply Forall_forall; intros d Hd; apply Hin;
      rewrite !elem_of_app; auto.
Qed.

Lemma validate_ok_iff (code : string) :
  InvalidDesignCodeError_validate code = Ok code
  <-> fullmatch design_code_regex code = true.
Proof.
  unfold InvalidDesignCodeError_validate.
  destruct (fullmatch design_code_regex code); simpl; split; congruence.
Qed.

(** *** The claims about the design code *)

Lemma pow_30_12 : 30 ^ 12 = 531441000000000000.
Proof. reflexivity. Qed.

(** C1.  For every id in the interval [0, 30^12), encoding the id to a design
    code and decoding that code with [design_id] yields the id again.  The
    encoder is the one the specification describes. *)
Theorem design_code_round_trip (id : Z) :
  0 <= id < 30 ^ 12 -> design_id (design_code id) = Ok id.
Proof.
  intros Hid. unfold design_id, design_code.
  rewrite remove_hyphens_group by apply base30_symbols.
  rewrite design_id_loop_base30. f_equal.
  change (Z.of_nat 12) with 12. rewrite Z.mod_small by exact Hid. lia.
Qed.

Lemma design_code_round_trip_witness :
  0 <= 123456789012 < 30 ^ 12
  /\ design_id (design_code 123456789012) = Ok 123456789012.
Proof.
  assert (0 <= 123456789012 < 30 ^ 12) as H by (rewrite pow_30_12; lia).
  split; [exact H | exact (design_code_round_trip 123456789012 H)].
Defined.

Lemma example_in_alphabet :
  Forall in_alphabet (remove_hyphens "BBCD-1234-WXYY").
Proof.
  apply Forall_forall. intros c Hc. apply str_mem_alphabet.
  vm_compute in Hc.
  repeat (apply elem_of_cons in Hc as [->|Hc]; [reflexivity|]).
  inversion Hc.
Qed.



(** A decoded code of 12 characters is an id of the representable range. *)
Lemma weighted_sum_from_range (cs : list ascii) :
  Forall in_alphabet cs ->
  0 <= weighted_sum_from (Z.of_nat (length cs) - 1) cs
    < 30 ^ Z.of_nat (length cs).
Proof.
  induction 1 as [|c cs Hc _ IH].
  - unfold weighted_sum_from. simpl. lia.
  - rewrite weighted_sum_from_cons, length_cons, Nat2Z.inj_succ.
    replace (Z.succ (Z.of_nat (length cs)) - 1) with (Z.of_nat (length cs)) by lia.
    rewrite Z.pow_succ_r by lia. pose proof (value_range c Hc).
    assert (0 < 30 ^ Z.of_nat (length cs)) by (apply Z.pow_pos_nonneg; lia).
    nia.
Qed.

Lemma design_id_range (pattern_code : string) :
  length (remove_hyphens pattern_code) = 12%nat ->
  Forall in_alphabet (remove_hyphens pattern_code) ->
  exists n, design_id pattern_code = Ok n /\ 0 <= n < 30 ^ 12.
Proof.
  intros Hlen Hall. unfold design_id. rewrite design_id_loop_sum by exact Hall.
  eexists. split; [reflexivity|].
  pose proof (weighted_sum_from_range _ Hall) as H. rewrite Hlen in *.
  change (Z.of_nat 12) with 12 in *. lia.
Qed.

Lemma wrong_length_0 : wrong_length "0".
Proof. unfold wrong_length. vm_compute. discriminate. Qed.

(** C7, as the specification states it, fails for [design_id]: the code
    ["0"] does not have 12 characters, and [design_id] accepts it. *)
Lemma design_id_accepts_short_code :
  ~ (design_id "0" = Raise (ACNH (new InvalidDesignCodeError))
     <-> bad_character "0" \/ wrong_length "0" \/ ~ grouped "0").
Proof.
  intros [_ H].
  assert (design_id "0" = Ok 0) as E by reflexivity.
  rewrite E in H. discriminate H. right. left. exact wrong_length_0.
Qed.

(** C7, amended.  [design_id] fails, with the invalid-design-code error,
    exactly when some character that is not a hyphen is outside the alphabet;
    it checks neither the number of characters nor the grouping.  Those are
    checked by [InvalidDesignCodeError.validate], which the views call before
    [design_id]: the two calls together fail with the invalid-design-code
    error exactly when some character is outside the alphabet, or the
    characters other than hyphens are not 12, or the code is not three groups
    of four separated by hyphens; they raise nothing else. *)
Theorem design_code_rejection (code : string) :
  (design_id code = Raise (ACNH (new InvalidDesignCodeError))
   <-> bad_character code)
  /\ (Views.requested_design_id code = Raise (ACNH (new InvalidDesignCodeError))
      <-> bad_character code \/ wrong_length code \/ ~ grouped code)
  /\ (forall e, Views.requested_design_id code = Raise e ->
                e = ACNH (new InvalidDesignCodeError)).
Proof.
  split; [|split].
  - rewrite design_id_raises_iff. tauto.
  - unfold Views.requested_design_id, InvalidDesignCodeError_validate.
    pose proof (fullmatch_conditions code) as Hc.
    destruct (fullmatch design_code_regex code) eqn:E; cbn [negb bind].
    + destruct Hc as [Hc _]. destruct (Hc eq_refl) as [Hbad [Hlen Hgrp]].
      split.
      * intros H. apply design_id_raises_iff in H. tauto.
      * tauto.
    + split; [|done]. intros _.
      destruct (all_or_bad (remove_hyphens code)) as [Hall|Hbad]; [|by left].
      assert (~ bad_character code) as Hgood.
      { intros [c [Hin Hout]]. rewrite Forall_forall in Hall. auto. }
      destruct (decide (length (remove_hyphens code) = 12%nat)) as [Hlen|Hlen];
        [|by right; left].
      right. right. intros Hgrp. destruct Hc as [_ Hc].
      assert (false = true) as Habs; [|discriminate Habs].
      apply Hc. unfold wrong_length. tauto.
  - intros e. unfold Views.requested_design_id, InvalidDesignCodeError_validate.
    destruct (fullmatch design_code_regex code); cbn [negb bind].
    + intros H. by apply design_id_raises_iff in H as [-> _].
    + by intros [= <-].
Qed.

(** C8, as the specification states it, fails: [design_id] rejects the code,
    whose first and last characters are not in the alphabet. *)
Lemma example_code_rejected :
  ~ (Forall in_alphabet (remove_hyphens "ABCD-1234-WXYZ")
     /\ exists n, design_id "ABCD-1234-WXYZ" = Ok n /\ 0 <= n < 30 ^ 12).
Proof.
  intros [_ [n [H _]]]. vm_compute in H. discriminate H.
Qed.

(** C8, amended.  The code ["ABCD-1234-WXYZ"] has two characters, [A] and
    [Z], that are not in the alphabet, and [design_id] rejects it with the
    invalid-design-code error; with these two replaced by characters of the
    alphabet, as in ["BBCD-1234-WXYY"], the code decodes to one integer that
    is at least 0 and below 30^12. *)
Theorem example_code :
  ~ in_alphabet "A"%char /\ ~ in_alphabet "Z"%char
  /\ design_id "ABCD-1234-WXYZ" = Raise (ACNH (new InvalidDesignCodeError))
  /\ Forall in_alphabet (remove_hyphens "BBCD-1234-WXYY")
  /\ design_id "BBCD-1234-WXYY" = Ok 183276309604895099
  /\ 0 <= 183276309604895099 < 30 ^ 12.
Proof.
  split; [|split; [|split; [|split; [|split]]]].
  - intros H. apply str_mem_alphabet in H. vm_compute in H. discriminate H.
  - intros H. apply str_mem_alphabet in H. vm_compute in H. discriminate H.
  - reflexivity.
  - exact example_in_alphabet.
  - reflexivity.
  - rewrite pow_30_12. lia.
Qed.

End DesignsFacts.

(** * Properties of rendering *)
Module RenderFacts.
Import Render Spec Examples.

Section Facts.

Variables WIDTH HEIGHT : Z.
Variable int : string -> option Z.

(** *** The palette *)

Lemma gen_palette_loop_lookup items palette palette' (n : Z) :
  gen_palette_loop int items palette = Ok palette' ->
  palette' !! n
  = match stored_color int items n with
    | Some color => Some color
    | None => palette !! n
    end.
Proof.
  revert palette. induction items as [|[k color] items IH]; intros palette.
  - intros [= ->]. done.
  - cbn [Render.gen_palette_loop stored_color].
    destruct (int k) as [i|] eqn:Ek; cbn [or_raise bind]; [|discriminate].
    intros H. rewrite (IH _ H).
    destruct (stored_color int items n); [done|].
    destruct (decide (i = n)) as [->|Hne].
    + rewrite bool_decide_eq_true_2 by done. apply lookup_insert_eq.
    + rewrite bool_decide_eq_false_2 by congruence. by apply lookup_insert_ne.
Qed.

(** Index 15 is transparent whatever the document stores for it. *)
Lemma gen_palette_15 raw palette :
  gen_palette int raw = Ok palette -> palette !! 15 = Some 0.
Proof.
  unfold Render.gen_palette.
  destruct (gen_palette_loop int (mPalette raw) ∅); cbn [bind]; [|discriminate].
  intros [= <-]. apply lookup_insert_eq.
Qed.

(** Any other index has the colour the document stores for it. *)
Lemma gen_palette_other raw palette (n : Z) :
  gen_palette int raw = Ok palette -> n <> 15 ->
  palette !! n = stored_color int (mPalette raw) n.
Proof.
  unfold Render.gen_palette.
  destruct (gen_palette_loop int (mPalette raw) ∅) as [pal|] eqn:E;
    cbn [bind]; [|discriminate].
  intros [= <-] Hn. rewrite lookup_insert_ne by congruence.
  rewrite (gen_palette_loop_lookup _ _ _ n E).
  destruct (stored_color int (mPalette raw) n); [done | apply lookup_empty].
Qed.

(** The palette is built exactly when every key of the document reads as an
    integer; otherwise [int] raises [ValueError]. *)
Lemma gen_palette_loop_result items palette :
  (exists palette', gen_palette_loop int items palette = Ok palette')
  \/ gen_palette_loop int items palette = Raise ValueError.
Proof.
  revert palette. induction items as [|[k color] items IH]; intros palette.
  - left. by eexists.
  - cbn [Render.gen_palette_loop]. destruct (int k); cbn [or_raise bind]; [apply IH | by right].
Qed.

Lemma gen_palette_result raw :
  (exists palette, gen_palette int raw = Ok palette)
  \/ gen_palette int raw = Raise ValueError.
Proof.
  unfold Render.gen_palette.
  destruct (gen_palette_loop_result (mPalette raw) ∅) as [[pal ->]| ->];
    cbn [bind]; [left; by eexists | by right].
Qed.

(** *** Unpacking *)

Lemma big_endian_length (n : nat) (z : Z) : length (big_endian n z) = n.
Proof.
  revert z. induction n as [|n IH]; intros z; [done|].
  cbn [big_endian]. rewrite length_app, IH. simpl. lia.
Qed.

Lemma write_nibble_ok palette nibble out out' :
  write_nibble palette nibble out = Ok out' ->
  exists color, palette !! nibble = Some color
                /\ out' = (out ++ big_endian 4 color)%list.
Proof.
  unfold write_nibble, to_bytes.
  destruct (palette !! nibble) as [color|]; cbn [or_raise bind]; [|discriminate].
  case_bool_decide; cbn [bind]; [|discriminate].
  intros [= <-]. by exists color.
Qed.

Lemma write_nibble_raise palette nibble out e :
  write_nibble palette nibble out = Raise e -> e = KeyError \/ e = OverflowError.
Proof.
  unfold write_nibble, to_bytes.
  destruct (palette !! nibble) as [color|]; cbn [or_raise bind].
  - case_bool_decide; cbn [bind]; [discriminate|]. intros [= <-]. by right.
  - intros [= <-]. by left.
Qed.

(** What the loop appends to the buffer: eight bytes for each byte of the
    layer, the colour of its low nibble and then the colour of its high
    nibble. *)
Lemma write_layer_ok palette layer out out' :
  write_layer palette layer out = Ok out' ->
  exists rest,
    out' = (out ++ rest)%list
    /\ length rest = (8 * length layer)%nat
    /\ forall (i : nat) (byte : Z), layer !! i = Some byte ->
         exists lo hi,
           palette !! Z.land byte 15 = Some lo
           /\ palette !! Z.land (Z.shiftr byte 4) 15 = Some hi
           /\ take 4 (drop (4 * (2 * i)) rest) = big_endian 4 lo
           /\ take 4 (drop (4 * (2 * i + 1)) rest) = big_endian 4 hi.
Proof.
  revert out. induction layer as [|b layer IH]; intros out.
  - intros [= <-]. exists []. rewrite app_nil_r. repeat split. intros i byte H.
    inversion H.
  - cbn [write_layer].
    destruct (write_nibble palette (Z.land b 15) out) as [out1|] eqn:E1;
      cbn [bind]; [|discriminate].
    destruct (write_nibble palette (Z.land (Z.shiftr b 4) 15) out1) as [out2|] eqn:E2;
      cbn [bind]; [|discriminate].
    intros H. destruct (IH _ H) as [rest [-> [Hlen Hpix]]].
    apply write_nibble_ok in E1 as [lo [Hlo ->]].
    apply write_nibble_ok in E2 as [hi [Hhi ->]].
    exists (big_endian 4 lo ++ big_endian 4 hi ++ rest)%list.
    split; [by rewrite <- !app_assoc|]. split.
    { rewrite !length_app, !big_endian_length, Hlen. simpl. lia. }
    intros [|i] byte Hbyte.
    + injection Hbyte as <-. exists lo, hi. split; [done|]. split; [done|].
      split.
      * change (4 * (2 * 0))%nat with 0%nat. rewrite drop_0.
        by rewrite take_app_length' by (by rewrite big_endian_length).
      * replace (4 * (2 * 0 + 1))%nat with (length (big_endian 4 lo))
          by (rewrite big_endian_length; lia).
        rewrite drop_app_length.
        by rewrite take_app_length' by (by rewrite big_endian_length).
    + destruct (Hpix i byte Hbyte) as [lo' [hi' [Hlo' [Hhi' [P1 P2]]]]].
      exists lo', hi'. split; [done|]. split; [done|].
      assert (forall k : nat,
        drop (8 + k) (big_endian 4 lo ++ big_endian 4 hi ++ rest) = drop k rest)
        as Hdrop.
      { intros k. rewrite app_assoc.
        replace (8 + k)%nat with (length (big_endian 4 lo ++ big_endian 4 hi) + k)%nat
          by (rewrite length_app, !big_endian_length; lia).
        apply drop_app_add. }
      replace (4 * (2 * S i))%nat with (8 + 4 * (2 * i))%nat by lia.
      replace (4 * (2 * S i + 1))%nat with (8 + 4 * (2 * i + 1))%nat by lia.
      by rewrite !Hdrop.
Qed.

Lemma write_layer_raise palette layer out e :
  write_layer palette layer out = Raise e -> e = KeyError \/ e = OverflowError.
Proof.
  revert out. induction layer as [|b layer IH]; intros out; [discriminate|].
  cbn [write_layer].
  destruct (write_nibble palette (Z.land b 15) out) as [out1|] eqn:E1; cbn [bind].
  - destruct (write_nibble palette (Z.land (Z.shiftr b 4) 15) out1) as [out2|] eqn:E2;
      cbn [bind]; [apply IH|].
    intros [= <-]. by apply write_nibble_raise in E2.
  - intros [= <-]. by apply write_nibble_raise in E1.
Qed.

(** *** [_render_layer] *)

Lemma render_layer_ok raw p layer im :
  _render_layer WIDTH HEIGHT int raw p layer = Ok im ->
  exists palette out,
    gen_palette int raw = Ok palette
    /\ write_layer palette layer [] = Ok out
    /\ WIDTH * HEIGHT * 4 = Z.of_nat (length out)
    /\ im = {| width := WIDTH; height := HEIGHT; pixels := out |}.
Proof.
  unfold Render._render_layer.
  destruct (gen_palette int raw) as [palette|] eqn:Hpal; cbn [bind]; [|discriminate].
  destruct (write_layer palette layer []) as [out|] eqn:Hout; cbn [bind];
    [|discriminate].
  unfold import_pixels. cbn [width height new_Image].
  case_bool_decide as Hlen; cbn [negb]; [|discriminate].
  intros [= <-]. exists palette, out.
  split; [done|]. split; [done|]. split; [exact Hlen | done].
Qed.

Lemma write_layer_returns palette layer out :
  (forall byte nibble, byte ∈ layer -> nibble ∈ nibbles byte ->
     exists color, palette !! nibble = Some color /\ 0 <= color < 256 ^ 4) ->
  exists out', write_layer palette layer out = Ok out'.
Proof.
  revert out. induction layer as [|b layer IH]; intros out Hcol.
  - by eexists.
  - cbn [write_layer].
    destruct (Hcol b (Z.land b 15)) as [lo [Hlo Rlo]];
      [left | left |].
    destruct (Hcol b (Z.land (Z.shiftr b 4) 15)) as [hi [Hhi Rhi]];
      [left | right; left |].
    unfold write_nibble, to_bytes. rewrite Hlo, Hhi. cbn [or_raise bind].
    rewrite !bool_decide_eq_true_2 by done. cbn [bind].
    apply IH. intros byte nibble Hb Hn. apply (Hcol byte nibble); [by right | done].
Qed.

(** [_render_layer] returns a raster when the keys of the palette read as
    integers, every nibble of the layer has a colour of 32 bits, and the
    layer has half as many bytes as the tile has pixels. *)
Lemma render_layer_returns raw palette p layer :
  gen_palette int raw = Ok palette ->
  (forall byte nibble, byte ∈ layer -> nibble ∈ nibbles byte ->
     exists color, palette !! nibble = Some color /\ 0 <= color < 256 ^ 4) ->
  2 * Z.of_nat (length layer) = WIDTH * HEIGHT ->
  exists im, _render_layer WIDTH HEIGHT int raw p layer = Ok im.
Proof.
  intros Hpal Hcol Hlen. unfold Render._render_layer. rewrite Hpal. cbn [bind].
  destruct (write_layer_returns palette layer [] Hcol) as [out Hout].
  rewrite Hout. cbn [bind].
  apply write_layer_ok in Hout as [rest [-> [Hrest _]]].
  unfold import_pixels. cbn [width height new_Image app].
  rewrite bool_decide_eq_true_2; [by eexists|].
  change (Z.of_nat (String.length "RGBA")) with 4. lia.
Qed.

(** C4.  When [_render_layer] returns a raster, every byte of the layer
    contributed exactly two RGBA pixels to it, the pixel of the low nibble
    and then the pixel of the high nibble, each with the colour that the
    palette built from the document has for the nibble; for a nibble other
    than 15 that is the colour stored in the document. *)
Theorem unpack_low_then_high raw p layer im :
  _render_layer WIDTH HEIGHT int raw p layer = Ok im ->
  exists palette, gen_palette int raw = Ok palette
                  /\ unpacked int raw palette layer im.
Proof.
  intros H. apply render_layer_ok in H as [palette [out [Hpal [Hout [_ ->]]]]].
  exists palette. split; [exact Hpal|].
  apply write_layer_ok in Hout as [rest [-> [Hlen Hpix]]].
  cbn [app] in *. split; [cbn [pixels]; lia|].
  intros i byte Hbyte. destruct (Hpix i byte Hbyte) as [lo [hi [Hlo [Hhi [P1 P2]]]]].
  exists lo, hi. unfold pixel. cbn [pixels].
  repeat split; try assumption.
  - intros Hne. by rewrite <- (gen_palette_other raw palette _ Hpal Hne).
  - intros Hne. by rewrite <- (gen_palette_other raw palette _ Hpal Hne).
Qed.

Lemma big_endian_0 : big_endian 4 0 = transparent.
Proof. reflexivity. Qed.

(** C5.  In the palette that [gen_palette] builds, index 15 is the fully
    transparent colour, whatever the document stores for index 15; and in a
    raster that [_render_layer] returns, every pixel whose nibble is 15 is
    fully transparent. *)
Theorem index_15_transparent raw palette :
  gen_palette int raw = Ok palette ->
  palette !! 15 = Some 0
  /\ forall p layer im,
       _render_layer WIDTH HEIGHT int raw p layer = Ok im ->
       transparent_at_15 layer im.
Proof.
  intros Hpal. split; [by apply (gen_palette_15 raw)|].
  intros p layer im H.
  apply render_layer_ok in H as [palette' [out [Hpal' [Hout [_ ->]]]]].
  assert (palette' = palette) as -> by congruence.
  apply write_layer_ok in Hout as [rest [-> [_ Hpix]]].
  pose proof (gen_palette_15 raw palette Hpal) as H15.
  intros i byte Hbyte. unfold pixel. cbn [pixels app].
  destruct (Hpix i byte Hbyte) as [lo [hi [Hlo [Hhi [P1 P2]]]]].
  split; intros E; rewrite E in *.
  - assert (lo = 0) as -> by congruence. by rewrite P1.
  - assert (hi = 0) as -> by congruence. by rewrite P2.
Qed.

(** [_render_layer] raises nothing but the three exceptions of the
    interpreter and of the image library; in particular no error of
    [errors.py]. *)
Lemma render_layer_raise raw p layer e :
  _render_layer WIDTH HEIGHT int raw p layer = Raise e ->
  e = KeyError \/ e = OverflowError \/ e = ValueError.
Proof.
  unfold Render._render_layer.
  destruct (gen_palette_result raw) as [[palette ->]| ->]; cbn [bind].
  - destruct (write_layer palette layer []) as [out|] eqn:Hout; cbn [bind].
    + unfold import_pixels. case_bool_decide; cbn [negb]; [discriminate|].
      intros [= <-]. auto.
    + intros [= <-]. apply write_layer_raise in Hout. tauto.
  - intros [= <-]. auto.
Qed.


(** C10.  The result of [_render_layer] is the same for any two palette
    arguments, and [render_layer] is [_render_layer] at the layer that the
    document has for the index, with any palette argument. *)
Theorem palette_argument_ignored raw (p1 p2 : gmap Z Z) layer (layer_i : Z) :
  _render_layer WIDTH HEIGHT int raw p1 layer
  = _render_layer WIDTH HEIGHT int raw p2 layer
  /\ render_layer WIDTH HEIGHT int raw layer_i
     = match mData raw !! pretty layer_i with
       | None =>
         Raise (ACNH (new_InvalidLayerIndexError (Z.of_nat (size (mData raw)))))
       | Some layer' => _render_layer WIDTH HEIGHT int raw p1 layer'
       end.
Proof.
  split; [reflexivity|].
  unfold Render.render_layer. destruct (mData raw !! pretty layer_i); [|done].
  unfold Render._render_layer. by destruct (gen_palette int raw).
Qed.

End Facts.

(** *** Concrete documents *)

Lemma unpack_low_then_high_witness :
  _render_layer 2 1 int_decimal red_document ∅ [240] = Ok red_raster
  /\ exists palette, gen_palette int_decimal red_document = Ok palette
                     /\ unpacked int_decimal red_document palette [240] red_raster.
Proof.
  assert (_render_layer 2 1 int_decimal red_document ∅ [240] = Ok red_raster)
    as H by (vm_compute; reflexivity).
  split; [exact H|].
  exact (unpack_low_then_high 2 1 int_decimal red_document ∅ [240] red_raster H).
Defined.

Lemma index_15_transparent_witness :
  gen_palette int_decimal red_document = Ok red_palette
  /\ red_palette !! 15 = Some 0
  /\ pixel red_raster 1 = transparent.
Proof.
  assert (gen_palette int_decimal red_document = Ok red_palette)
    as Hpal by (vm_compute; reflexivity).
  assert (_render_layer 2 1 int_decimal red_document ∅ [240] = Ok red_raster)
    as Hras by (vm_compute; reflexivity).
  split; [exact Hpal|].
  destruct (index_15_transparent 2 1 int_decimal red_document red_palette Hpal)
    as [H15 Hpix].
  split; [exact H15|].
  exact (proj2 (Hpix ∅ [240] red_raster Hras 0%nat 240 eq_refl) eq_refl).
Defined.



(** With a full palette the failure is that of the image library. *)
Example wrong_length_value_error :
  _render_layer 32 32 int_decimal
    {| mPalette := [("0", 255)]; mData := ∅ |} ∅ [0] = Raise ValueError.
Proof. vm_compute. reflexivity. Qed.

End RenderFacts.

(** * Properties of the error classes *)
Module ErrorsFacts.

(** *** Classes *)

(** The linearisation succeeds for every class of the module. *)
Lemma mro_defined (c : cls) : linearise 8 c = Some (mro c).
Proof. destruct c; reflexivity. Qed.

Lemma mro_head (c : cls) : head (mro c) = Some c.
Proof. destruct c; reflexivity. Qed.

Example mro_invalid_design_code :
  mro InvalidDesignCodeError
  = [InvalidDesignCodeError; DesignError; InvalidFormatError; ACNHError].
Proof. reflexivity. Qed.

(** *** The tile count *)

(** The budget check raises exactly when the count is above the budget. *)
Lemma validate_budget (MAX_DESIGN_TILES W H : Z) (size : Z * Z) :
  TiledImageTooBigError_validate MAX_DESIGN_TILES W H size
  = if bool_decide (num_tiles W H size.1 size.2 > MAX_DESIGN_TILES)
    then Raise (ACNH (new_TiledImageTooBigError W H size))
    else Ok tt.
Proof. reflexivity. Qed.

(** With the divisions done one after the other, from left to right, the
    count is never below the product of the two quotients. *)
Lemma num_tiles_lower_bound (W H width height : Z) :
  0 < W -> 0 < H -> 0 <= width -> 0 <= height ->
  (width / W) * (height / H) <= num_tiles W H width height.
Proof.
  intros HW HH Hw Hh. unfold num_tiles.
  assert (0 <= width / W) as Hc by (apply Z.div_pos; lia).
  apply Z.div_le_lower_bound; [lia|].
  pose proof (Z.mul_div_le height H HH). nia.
Qed.

(** The two agree when the height is a whole number of tiles. *)
Lemma num_tiles_whole_rows (W H width height : Z) :
  0 < H -> height mod H = 0 ->
  num_tiles W H width height = (width / W) * (height / H).
Proof.
  intros HH Hmod. unfold num_tiles.
  apply Z.mod_divide in Hmod as [q ->]; [|lia].
  rewrite Z.mul_assoc, !Z.div_mul by lia. reflexivity.
Qed.

(** They differ for an image two tiles wide and one pixel short of two tiles
    high, whatever the size of a tile with at least two rows. *)
Lemma num_tiles_overcount (W H : Z) :
  0 < W -> 2 <= H ->
  num_tiles W H (2 * W) (2 * H - 1) = 3
  /\ (2 * W / W) * ((2 * H - 1) / H) = 2.
Proof.
  intros HW HH. unfold num_tiles. rewrite Z.div_mul by lia.
  split.
  - symmetry. apply (Z.div_unique_pos _ _ 3 (H - 2)); lia.
  - assert ((2 * H - 1) / H = 1) as ->; [|lia].
    symmetry. apply (Z.div_unique_pos _ _ 1 (H - 1)); lia.
Qed.

(** C2.  For an image of 64 by 48 pixels and tiles of 32 by 32 the tile count
    of the code is 3, while the product of the two quotients is 2:
    [width // WIDTH * height // HEIGHT] divides the product
    [(width // WIDTH) * height] by [HEIGHT]. *)
Theorem num_tiles_left_to_right :
  num_tiles 32 32 64 48 = 3 /\ (64 / 32) * (48 / 32) = 2.
Proof. split; reflexivity. Qed.

(** *** [to_dict] *)

Lemma append_assoc (s1 s2 s3 : string) :
  (s1 +:+ s2) +:+ s3 = s1 +:+ (s2 +:+ s3).
Proof.
  induction s1 as [|c s1 IH]; [done|].
  change (String c ((s1 +:+ s2) +:+ s3) = String c (s1 +:+ (s2 +:+ s3))).
  by rewrite IH.
Qed.

Section ToDict.

Variables PALETTE_SIZE MAX_DESIGN_TILES BYTES_PER_PIXEL : Z.

(** The method of [InvalidLayerIndexError] has no [return]: whatever the
    classes after it do, it does not return a dictionary. *)
Lemma invalid_layer_index_returns_no_dict (chain : list cls) (self : error)
  (d : pydict) :
  to_dict_from PALETTE_SIZE MAX_DESIGN_TILES BYTES_PER_PIXEL
    (InvalidLayerIndexError :: chain) self <> Ok (Some d).
Proof.
  cbn [to_dict_from].
  destruct (to_dict_from _ _ _ chain self) as [d0|]; cbn [bind]; [|discriminate].
  destruct (getattr self "num_layers"); cbn [bind]; [|discriminate].
  destruct (setitem d0 "num_layers" a); cbn [bind]; discriminate.
Qed.

(** C9.  Serialising the error of an invalid layer index does not give a
    dictionary with the message, the code, the status and the layer count:
    it raises [AttributeError], because no class on the resolution order of
    [InvalidLayerIndexError] assigns [http_status], which [ACNHError.to_dict]
    reads; and the method of the class, which has no [return], gives no
    dictionary whatever the classes after it return. *)
Theorem invalid_layer_index_to_dict (num_layers : Z) :
  mro InvalidLayerIndexError = [InvalidLayerIndexError; DesignError; ACNHError]
  /\ class_attr own_http_status InvalidLayerIndexError = None
  /\ to_dict PALETTE_SIZE MAX_DESIGN_TILES BYTES_PER_PIXEL
       (new_InvalidLayerIndexError num_layers)
     = Raise AttributeError
  /\ forall chain self d,
       to_dict_from PALETTE_SIZE MAX_DESIGN_TILES BYTES_PER_PIXEL
         (InvalidLayerIndexError :: chain) self <> Ok (Some d).
Proof.
  split; [reflexivity|]. split; [reflexivity|]. split; [reflexivity|].
  intros chain self d. apply invalid_layer_index_returns_no_dict.
Qed.

(** The error of a mismatched layer size serialises to the message, the
    code, the status and the expected dimensions. *)
Lemma invalid_layer_size_to_dict (name : string) (width height : Z) :
  exists d,
    to_dict PALETTE_SIZE MAX_DESIGN_TILES BYTES_PER_PIXEL
      (new_InvalidLayerSizeError name width height) = Ok (Some d)
    /\ d !! "error"
       = Some (VStr ("layer " +:+ name +:+ " was not " +:+ pretty width
                     +:+ "×" +:+ pretty height +:+ "."))
    /\ d !! "error_code" = Some (VInt 305)
    /\ d !! "http_status" = Some (VInt 400)
    /\ d !! "expected_width" = Some (VInt width)
    /\ d !! "expected_height" = Some (VInt height)
    /\ d !! "expected_byte_length" = Some (VInt (width * height * BYTES_PER_PIXEL)).
Proof.
  eexists. split; [reflexivity|].
  repeat split; by simplify_map_eq.
Qed.

(** The error of an exceeded tile budget serialises to the message, the code
    and the status; the tile count is part of the message and has no entry
    of its own. *)
Lemma tiled_image_too_big_to_dict (WIDTH HEIGHT : Z) (size : Z * Z) :
  exists d,
    to_dict PALETTE_SIZE MAX_DESIGN_TILES BYTES_PER_PIXEL
      (new_TiledImageTooBigError WIDTH HEIGHT size) = Ok (Some d)
    /\ d !! "error"
       = Some (VStr ("The uploaded image would create "
                     +:+ pretty (num_tiles WIDTH HEIGHT size.1 size.2)
                     +:+ " tiles, which is greater than the limit, "
                     +:+ pretty MAX_DESIGN_TILES +:+ "."))
    /\ d !! "error_code" = Some (VInt 306)
    /\ d !! "http_status" = Some (VInt 413)
    /\ d !! "num_tiles" = None.
Proof.
  eexists. split; [reflexivity|].
  repeat split; simplify_map_eq; try done.
  rewrite !append_assoc. reflexivity.
Qed.

End ToDict.

End ErrorsFacts.

(** * More about rendering *)
Module RenderMore.
Import Render Spec Examples MoreExamples RenderFacts.

Section More.

Variables WIDTH HEIGHT : Z.
Variable int : string -> option Z.

(** *** The palette *)

Lemma gen_palette_loop_defined items palette :
  (exists palette', gen_palette_loop int items palette = Ok palette')
  <-> Forall (fun item => is_Some (int item.1)) items.
Proof.
  revert palette. induction items as [|[k color] items IH]; intros palette.
  - split; [constructor | by eexists].
  - cbn [Render.gen_palette_loop]. rewrite Forall_cons. cbn [fst].
    destruct (int k) as [i|]; cbn [or_raise bind].
    + rewrite IH. split; [intros H; split; [by eexists | done] | by intros [_ H]].
    + split; [intros [? H]; discriminate | intros [[? H] _]; discriminate].
Qed.

(** X1.  The palette is built exactly when [int] reads every key of the document;
    otherwise the call raises [ValueError] and nothing else. *)
Theorem gen_palette_defined_iff (raw : raw_image) :
  ((exists palette, gen_palette int raw = Ok palette)
   <-> Forall (fun item => is_Some (int item.1)) (mPalette raw))
  /\ ((exists palette, gen_palette int raw = Ok palette)
      \/ gen_palette int raw = Raise ValueError).
Proof.
  split; [|apply gen_palette_result].
  rewrite <- (gen_palette_loop_defined (mPalette raw) ∅).
  unfold Render.gen_palette.
  destruct (gen_palette_loop int (mPalette raw) ∅); cbn [bind].
  - split; intros _; by eexists.
  - split; intros [? H]; discriminate.
Qed.

Lemma stored_color_Some items (n color : Z) :
  stored_color int items n = Some color ->
  exists k, (k, color) ∈ items /\ int k = Some n.
Proof.
  induction items as [|[k c] items IH]; [discriminate|].
  cbn [stored_color].
  destruct (stored_color int items n) as [later|].
  - intros [= ->]. destruct (IH eq_refl) as [k' [Hin Hk]].
    exists k'. split; [by right | done].
  - case_bool_decide as Hk; [|discriminate]. intros [= ->].
    exists k. split; [by left | done].
Qed.

Lemma stored_color_is_Some items (k : string) (color n : Z) :
  (k, color) ∈ items -> int k = Some n -> is_Some (stored_color int items n).
Proof.
  induction items as [|[k' c'] items IH]; intros Hin Hk; [inversion Hin|].
  cbn [stored_color].
  destruct (stored_color int items n) as [later|] eqn:E; [by eexists|].
  apply elem_of_cons in Hin as [[= <- <-]|Hin].
  - rewrite bool_decide_eq_true_2 by done. by eexists.
  - destruct (IH Hin Hk) as [? ?]. discriminate.
Qed.

(** X2.  The indices of a palette that [gen_palette] returns are 15 and the
    integers that the keys of the document read as; the colour of an index
    other than 15 is the colour of some item of the document with that
    index. *)
Theorem gen_palette_indices (raw : raw_image) (palette : gmap Z Z) :
  gen_palette int raw = Ok palette ->
  (forall n, is_Some (palette !! n)
             <-> n = 15 \/ exists k color,
                             (k, color) ∈ mPalette raw /\ int k = Some n)
  /\ (forall n color, n <> 15 -> palette !! n = Some color ->
        exists k, (k, color) ∈ mPalette raw /\ int k = Some n).
Proof.
  intros Hpal. split.
  - intros n. destruct (decide (n = 15)) as [->|Hn].
    + rewrite (gen_palette_15 int raw palette Hpal). split; [by left | by eexists].
    + rewrite (gen_palette_other int raw palette n Hpal Hn). split.
      * intros [color Hc]. right. apply stored_color_Some in Hc as [k [? ?]].
        by exists k, color.
      * intros [?|[k [color [Hin Hk]]]]; [done|].
        by apply (stored_color_is_Some _ k color).
  - intros n color Hn Hc.
    rewrite (gen_palette_other int raw palette n Hpal Hn) in Hc.
    by apply stored_color_Some.
Qed.

(** *** The bytes of a colour *)

Lemma big_endian_bytes (n : nat) (z : Z) :
  Forall (fun b => 0 <= b < 256) (big_endian n z).
Proof.
  revert z. induction n as [|n IH]; intros z; [constructor|].
  cbn [big_endian]. apply Forall_app. split; [apply IH|].
  constructor; [|constructor]. apply Z.mod_pos_bound. lia.
Qed.

(** X3.  [to_bytes(4, 'big')] gives the four channels of a colour [0xRRGGBBAA],
    red first and alpha last, when the colour has 32 bits, and raises
    [OverflowError] when it is negative or has more. *)
Theorem to_bytes_channels (color : Z) :
  to_bytes 4 color
  = if bool_decide (0 <= color < 2 ^ 32)
    then Ok [Z.land (Z.shiftr color 24) 255; Z.land (Z.shiftr color 16) 255;
             Z.land (Z.shiftr color 8) 255; Z.land color 255]
    else Raise OverflowError.
Proof.
  unfold to_bytes. change (256 ^ Z.of_nat 4) with (2 ^ 32).
  case_bool_decide; [|reflexivity]. f_equal.
  cbn [big_endian app]. change 255 with (Z.ones 8).
  rewrite !Z.land_ones, !Z.shiftr_div_pow2, !Z.div_div by lia.
  reflexivity.
Qed.

(** *** When a layer renders *)

Lemma nibble_range (byte : Z) (nibble : Z) :
  nibble ∈ nibbles byte -> 0 <= nibble < 16.
Proof.
  unfold nibbles. change 15 with (Z.ones 4). rewrite !Z.land_ones by lia.
  intros H. apply elem_of_cons in H as [->|H];
    [|apply elem_of_cons in H as [->|H]; [|inversion H]];
    apply Z.mod_pos_bound; lia.
Qed.

Lemma write_nibble_color palette nibble out out' :
  write_nibble palette nibble out = Ok out' ->
  exists color, palette !! nibble = Some color /\ 0 <= color < 256 ^ 4.
Proof.
  unfold write_nibble, to_bytes.
  destruct (palette !! nibble) as [color|]; cbn [or_raise bind]; [|discriminate].
  case_bool_decide as Hc; cbn [bind]; [|discriminate].
  intros _. by exists color.
Qed.

Lemma write_layer_colors palette layer out out' :
  write_layer palette layer out = Ok out' ->
  forall byte nibble, byte ∈ layer -> nibble ∈ nibbles byte ->
    exists color, palette !! nibble = Some color /\ 0 <= color < 256 ^ 4.
Proof.
  revert out. induction layer as [|b layer IH]; intros out H byte nibble Hb Hn.
  - inversion Hb.
  - cbn [write_layer] in H.
    destruct (write_nibble palette (Z.land b 15) out) as [out1|] eqn:E1;
      cbn [bind] in H; [|discriminate].
    destruct (write_nibble palette (Z.land (Z.shiftr b 4) 15) out1) as [out2|] eqn:E2;
      cbn [bind] in H; [|discriminate].
    apply elem_of_cons in Hb as [->|Hb]; [|by apply (IH _ H byte)].
    unfold nibbles in Hn.
    apply elem_of_cons in Hn as [->|Hn]; [by apply write_nibble_color in E1|].
    apply elem_of_cons in Hn as [->|Hn]; [by apply write_nibble_color in E2|].
    inversion Hn.
Qed.

(** X4.  [_render_layer] returns a raster exactly when the keys of the palette
    read as integers, every nibble of the layer has a colour of 32 bits in
    the palette, and the layer has half as many bytes as a tile has
    pixels. *)
Theorem render_layer_returns_iff (raw : raw_image) (p : gmap Z Z) (layer : list Z) :
  (exists im, _render_layer WIDTH HEIGHT int raw p layer = Ok im)
  <-> exists palette,
        gen_palette int raw = Ok palette
        /\ (forall byte nibble, byte ∈ layer -> nibble ∈ nibbles byte ->
              exists color, palette !! nibble = Some color
                            /\ 0 <= color < 256 ^ 4)
        /\ 2 * Z.of_nat (length layer) = WIDTH * HEIGHT.
Proof.
  split.
  - intros [im H].
    apply render_layer_ok in H as [palette [out [Hpal [Hout [Hsize _]]]]].
    exists palette. split; [done|]. split.
    + by apply (write_layer_colors palette layer [] out).
    + apply write_layer_ok in Hout as [rest [-> [Hrest _]]].
      cbn [app] in Hsize. lia.
  - intros [palette [Hpal [Hcol Hlen]]].
    by apply (render_layer_returns WIDTH HEIGHT int raw palette).
Qed.

Lemma write_layer_bytes palette layer out out' :
  write_layer palette layer out = Ok out' ->
  Forall (fun b => 0 <= b < 256) out ->
  Forall (fun b => 0 <= b < 256) out'.
Proof.
  revert out. induction layer as [|b layer IH]; intros out H Hout.
  - by injection H as <-.
  - cbn [write_layer] in H.
    destruct (write_nibble palette (Z.land b 15) out) as [out1|] eqn:E1;
      cbn [bind] in H; [|discriminate].
    destruct (write_nibble palette (Z.land (Z.shiftr b 4) 15) out1) as [out2|] eqn:E2;
      cbn [bind] in H; [|discriminate].
    apply write_nibble_ok in E1 as [lo [_ ->]].
    apply write_nibble_ok in E2 as [hi [_ ->]].
    apply (IH _ H).
    apply Forall_app; split; [apply Forall_app; split; [done|] |];
      apply big_endian_bytes.
Qed.

(** X5.  A raster that [_render_layer] returns has the size of a tile, four
    values for each of its pixels, and every value is a byte. *)
Theorem raster_shape (raw : raw_image) (p : gmap Z Z) (layer : list Z) (im : Image) :
  _render_layer WIDTH HEIGHT int raw p layer = Ok im ->
  width im = WIDTH /\ height im = HEIGHT
  /\ Z.of_nat (length (pixels im)) = 4 * WIDTH * HEIGHT
  /\ Forall (fun b => 0 <= b < 256) (pixels im).
Proof.
  intros H. apply render_layer_ok in H as [palette [out [_ [Hout [Hsize ->]]]]].
  cbn [width height pixels]. split; [done|]. split; [done|]. split; [lia|].
  by apply (write_layer_bytes palette layer [] out).
Qed.

(** *** What of the document a layer depends on *)

Lemma write_layer_agree (p1 p2 : gmap Z Z) layer out :
  (forall n, 0 <= n < 16 -> p1 !! n = p2 !! n) ->
  write_layer p1 layer out = write_layer p2 layer out.
Proof.
  intros Hagree. revert out. induction layer as [|b layer IH]; intros out; [done|].
  cbn [write_layer]. unfold write_nibble.
  rewrite !(Hagree (Z.land _ 15))
    by (apply (nibble_range b); unfold nibbles; set_solver).
  destruct (p2 !! Z.land b 15) as [lo|]; cbn [or_raise bind]; [|done].
  destruct (to_bytes 4 lo) as [bs|]; cbn [bind]; [|done].
  destruct (p2 !! Z.land (Z.shiftr b 4) 15) as [hi|]; cbn [or_raise bind]; [|done].
  destruct (to_bytes 4 hi) as [bs'|]; cbn [bind]; [|done].
  apply IH.
Qed.

(** X6.  Only the colours stored for the indices 0 to 14 reach a raster: two
    documents whose palettes can be built and store the same colours for
    these indices render every layer alike, whatever else their palettes
    hold. *)
Theorem render_depends_on_15_colours (raw1 raw2 : raw_image)
  (p1 p2 q1 q2 : gmap Z Z) (layer : list Z) :
  gen_palette int raw1 = Ok p1 ->
  gen_palette int raw2 = Ok p2 ->
  (forall n, 0 <= n < 15 ->
     stored_color int (mPalette raw1) n = stored_color int (mPalette raw2) n) ->
  _render_layer WIDTH HEIGHT int raw1 q1 layer
  = _render_layer WIDTH HEIGHT int raw2 q2 layer.
Proof.
  intros H1 H2 Hsame. unfold Render._render_layer. rewrite H1, H2. cbn [bind].
  rewrite (write_layer_agree p1 p2); [done|].
  intros n Hn. destruct (decide (n = 15)) as [->|Hne].
  - by rewrite (gen_palette_15 int raw1 p1 H1), (gen_palette_15 int raw2 p2 H2).
  - rewrite (gen_palette_other int raw1 p1 n H1 Hne),
      (gen_palette_other int raw2 p2 n H2 Hne). apply Hsame. lia.
Qed.

(** *** A layer that the document does not have *)

Lemma render_layer_acnh (raw : raw_image) (layer_i : Z) (e : error) :
  render_layer WIDTH HEIGHT int raw layer_i = Raise (ACNH e) ->
  mData raw !! pretty layer_i = None
  /\ e = new_InvalidLayerIndexError (Z.of_nat (size (mData raw))).
Proof.
  unfold Render.render_layer.
  destruct (mData raw !! pretty layer_i) as [layer|] eqn:E.
  - intros H. exfalso.
    destruct (gen_palette_result int raw) as [[palette Hpal]|Hpal];
      rewrite Hpal in H; cbn [bind] in H; [|discriminate].
    apply render_layer_raise in H as [H|[H|H]]; discriminate.
  - by intros [= <-].
Qed.

(** X7.  [render_layer] raises an error of [errors.py] exactly when the document
    has no layer under the text of the index; the error is then
    [InvalidLayerIndexError] with the number of layers of the document, and
    it is raised whether or not the palette can be built. *)
Theorem render_layer_missing_iff (raw : raw_image) (layer_i : Z) (e : error) :
  render_layer WIDTH HEIGHT int raw layer_i = Raise (ACNH e)
  <-> mData raw !! pretty layer_i = None
      /\ e = new_InvalidLayerIndexError (Z.of_nat (size (mData raw))).
Proof.
  split; [apply render_layer_acnh|].
  intros [Hnone ->]. unfold Render.render_layer. by rewrite Hnone.
Qed.

End More.

Lemma gen_palette_indices_witness :
  gen_palette int_decimal red_document = Ok red_palette
  /\ (is_Some (red_palette !! 0)
      <-> 0 = 15 \/ exists k color,
                      (k, color) ∈ mPalette red_document
                      /\ int_decimal k = Some 0).
Proof.
  assert (gen_palette int_decimal red_document = Ok red_palette)
    as Hpal by (vm_compute; reflexivity).
  split; [exact Hpal|].
  exact (proj1 (gen_palette_indices int_decimal red_document red_palette Hpal) 0).
Defined.

Lemma raster_shape_witness :
  _render_layer 2 1 int_decimal red_document ∅ [240] = Ok red_raster
  /\ width red_raster = 2 /\ height red_raster = 1
  /\ Z.of_nat (length (pixels red_raster)) = 4 * 2 * 1
  /\ Forall (fun b => 0 <= b < 256) (pixels red_raster).
Proof.
  assert (_render_layer 2 1 int_decimal red_document ∅ [240] = Ok red_raster)
    as H by (vm_compute; reflexivity).
  split; [exact H|].
  exact (raster_shape 2 1 int_decimal red_document ∅ [240] red_raster H).
Defined.

Lemma render_depends_on_15_colours_witness :
  gen_palette int_decimal red_document = Ok red_palette
  /\ gen_palette int_decimal red_variant = Ok red_variant_palette
  /\ (forall n, 0 <= n < 15 ->
        stored_color int_decimal (mPalette red_document) n
        = stored_color int_decimal (mPalette red_variant) n)
  /\ _render_layer 2 1 int_decimal red_document ∅ [240]
     = _render_layer 2 1 int_decimal red_variant ∅ [240].
Proof.
  assert (gen_palette int_decimal red_document = Ok red_palette)
    as H1 by (vm_compute; reflexivity).
  assert (gen_palette int_decimal red_variant = Ok red_variant_palette)
    as H2 by (vm_compute; reflexivity).
  assert (forall n, 0 <= n < 15 ->
            stored_color int_decimal (mPalette red_document) n
            = stored_color int_decimal (mPalette red_variant) n) as H3.
  { intros n Hn. cbn [stored_color mPalette red_document red_variant].
    change (int_decimal "0") with (Some 0).
    change (int_decimal "15") with (Some 15).
    change (int_decimal "16") with (Some 16).
    repeat case_bool_decide; simplify_eq; try reflexivity; lia. }
  split; [exact H1|]. split; [exact H2|]. split; [exact H3|].
  exact (render_depends_on_15_colours 2 1 int_decimal red_document red_variant
           red_palette red_variant_palette ∅ ∅ [240] H1 H2 H3).
Defined.

End RenderMore.

(** * More about the design code *)
Module DesignsMore.
Import Designs Spec DesignsFacts.

(** *** Range *)

(** X10.  A code whose characters other than hyphens are all in the alphabet is
    accepted whatever its length, and its id is below 30 to the number of
    these characters; the empty code has the id 0. *)
Theorem design_id_below_power (code : string) :
  Forall in_alphabet (remove_hyphens code) ->
  exists n, design_id code = Ok n
            /\ 0 <= n < 30 ^ Z.of_nat (length (remove_hyphens code)).
Proof.
  intros Hall. unfold design_id. rewrite design_id_loop_sum by exact Hall.
  eexists. split; [reflexivity|].
  pose proof (weighted_sum_from_range _ Hall). lia.
Qed.

Lemma design_id_below_power_witness :
  Forall in_alphabet (remove_hyphens "BBCD-1234-WXYY")
  /\ exists n, design_id "BBCD-1234-WXYY" = Ok n
               /\ 0 <= n < 30 ^ Z.of_nat (length (remove_hyphens "BBCD-1234-WXYY")).
Proof.
  split; [exact example_in_alphabet|].
  exact (design_id_below_power "BBCD-1234-WXYY" example_in_alphabet).
Defined.

(** *** Codes that decode alike *)

Lemma list_ascii_of_append (a b : string) :
  list_ascii_of_string (a +:+ b)
  = (list_ascii_of_string a ++ list_ascii_of_string b)%list.
Proof.
  induction a as [|c a IH]; [done|].
  change (String c a +:+ b) with (String c (a +:+ b)).
  cbn [list_ascii_of_string app]. by rewrite IH.
Qed.

Lemma remove_hyphens_append (a b : string) :
  remove_hyphens (a +:+ b) = (remove_hyphens a ++ remove_hyphens b)%list.
Proof. unfold remove_hyphens. by rewrite list_ascii_of_append, List.filter_app. Qed.

(** X11.  [design_id] does not see hyphens, wherever they are, nor zeros at the
    front: without the check of the expression, codes of different shapes
    and lengths decode to one id. *)
Theorem design_id_ignores (a b : string) :
  design_id (a +:+ "-" +:+ b) = design_id (a +:+ b)
  /\ design_id ("0" +:+ a) = design_id a.
Proof.
  unfold design_id. split.
  - by rewrite !remove_hyphens_append.
  - rewrite remove_hyphens_append.
    change (remove_hyphens "0") with ["0"%char]. cbn [app design_id_loop].
    by rewrite (alphabet_lookup_in "0"%char)
      by (apply str_mem_alphabet; reflexivity).
Qed.

(** *** Codes that decode apart *)

Lemma symbol_of_value (c : ascii) : in_alphabet c -> symbol (value c) = c.
Proof.
  intros H. apply str_mem_alphabet in H. revert H.
  destruct c as [[] [] [] [] [] [] [] []]; vm_compute; congruence.
Qed.

Lemma value_inj (c d : ascii) :
  in_alphabet c -> in_alphabet d -> value c = value d -> c = d.
Proof.
  intros Hc Hd E. rewrite <- (symbol_of_value c Hc), <- (symbol_of_value d Hd).
  by rewrite E.
Qed.

Lemma weighted_sum_from_inj (cs ds : list ascii) :
  length cs = length ds ->
  Forall in_alphabet cs -> Forall in_alphabet ds ->
  weighted_sum_from (Z.of_nat (length cs) - 1) cs
  = weighted_sum_from (Z.of_nat (length ds) - 1) ds ->
  cs = ds.
Proof.
  revert ds. induction cs as [|c cs IH]; intros [|d ds] Hlen Hcs Hds E;
    try discriminate; [done|].
  injection Hlen as Hlen.
  apply Forall_cons in Hcs as [Hc Hcs]. apply Forall_cons in Hds as [Hd Hds].
  rewrite !weighted_sum_from_cons, !length_cons, !Nat2Z.inj_succ in E.
  replace (Z.succ (Z.of_nat (length cs)) - 1) with (Z.of_nat (length cs)) in E by lia.
  replace (Z.succ (Z.of_nat (length ds)) - 1) with (Z.of_nat (length ds)) in E by lia.
  pose proof (weighted_sum_from_range cs Hcs) as Rc.
  pose proof (weighted_sum_from_range ds Hds) as Rd.
  pose proof (value_range c Hc). pose proof (value_range d Hd).
  rewrite <- Hlen in *.
  set (p := 30 ^ Z.of_nat (length cs)) in *.
  set (wc := weighted_sum_from (Z.of_nat (length cs) - 1) cs) in *.
  set (wd := weighted_sum_from (Z.of_nat (length cs) - 1) ds) in *.
  assert (value c = value d) as Ev by nia.
  assert (wc = wd) as Ew by nia.
  f_equal; [by apply value_inj | apply IH; try done].
  subst wc wd. by rewrite <- Hlen.
Qed.

Lemma list_ascii_of_string_inj (a b : string) :
  list_ascii_of_string a = list_ascii_of_string b -> a = b.
Proof.
  intros E. rewrite <- (string_of_list_ascii_of_string a),
    <- (string_of_list_ascii_of_string b). by rewrite E.
Qed.

(** X12.  The request of a design succeeds exactly for the codes that match the
    expression, and its id is then in the range of 12 symbols. *)
Theorem requested_design_id_defined (code : string) :
  ((exists n, Views.requested_design_id code = Ok n)
   <-> fullmatch design_code_regex code = true)
  /\ (forall n, Views.requested_design_id code = Ok n -> 0 <= n < 30 ^ 12).
Proof.
  unfold Views.requested_design_id, InvalidDesignCodeError_validate.
  pose proof (fullmatch_conditions code) as Hc.
  destruct (fullmatch design_code_regex code); cbn [negb bind].
  - destruct Hc as [Hc _]. destruct (Hc eq_refl) as [Hbad [Hlen Hgrp]].
    assert (Forall in_alphabet (remove_hyphens code)) as Hall.
    { destruct (all_or_bad (remove_hyphens code)) as [?|Hb]; [done|].
      by destruct Hbad. }
    assert (length (remove_hyphens code) = 12%nat) as Hl.
    { unfold wrong_length in Hlen. lia. }
    destruct (design_id_range code Hl Hall) as [n [E R]].
    split; [split; [done | by exists n]|].
    intros m Hm. by assert (m = n) as -> by congruence.
  - split; [split; [intros [? ?]; discriminate | discriminate]|].
    intros n H. discriminate.
Qed.

Lemma requested_design_id_matches (code : string) (n : Z) :
  Views.requested_design_id code = Ok n ->
  fullmatch design_code_regex code = true.
Proof.
  unfold Views.requested_design_id, InvalidDesignCodeError_validate.
  destruct (fullmatch design_code_regex code); [done | discriminate].
Qed.

(** X13.  Two codes that match the expression and have the same id are the same
    code. *)
Theorem requested_design_id_inj (code1 code2 : string) (n : Z) :
  Views.requested_design_id code1 = Ok n ->
  Views.requested_design_id code2 = Ok n ->
  code1 = code2.
Proof.
  intros H1 H2.
  pose proof (requested_design_id_matches code1 n H1) as M1.
  pose proof (requested_design_id_matches code2 n H2) as M2.
  unfold Views.requested_design_id, InvalidDesignCodeError_validate in H1, H2.
  rewrite M1 in H1. rewrite M2 in H2. cbn [negb bind] in H1, H2.
  apply fullmatch_iff in M1 as [a1 [b1 [c1 [E1 [[? [? ?]] [? [? ?]]]]]]].
  apply fullmatch_iff in M2 as [a2 [b2 [c2 [E2 [[? [? ?]] [? [? ?]]]]]]].
  assert (forall a b c : list ascii,
    Forall in_alphabet a -> Forall in_alphabet b -> Forall in_alphabet c ->
    List.filter (fun c => negb (Ascii.eqb c "-")) (a ++ "-"%char :: b ++ "-"%char :: c)
    = (a ++ b ++ c)%list) as Hrm.
  { intros a b c Fa Fb Fc.
    assert (forall l, Forall in_alphabet l ->
              List.filter (fun c => negb (Ascii.eqb c "-")) l = l) as Hf.
    { intros l Hl. apply filter_all. eapply Forall_impl; [exact Hl|].
      intros x Hx. by apply not_hyphen. }
    rewrite List.filter_app. cbn [List.filter]. simpl negb.
    rewrite List.filter_app. cbn [List.filter]. simpl negb.
    by rewrite !Hf. }
  unfold design_id, remove_hyphens in H1, H2.
  rewrite E1, Hrm in H1 by done. rewrite E2, Hrm in H2 by done.
  rewrite design_id_loop_sum in H1 by (rewrite !Forall_app; done).
  rewrite design_id_loop_sum in H2 by (rewrite !Forall_app; done).
  assert ((a1 ++ b1 ++ c1)%list = (a2 ++ b2 ++ c2)%list) as E.
  { apply weighted_sum_from_inj.
    - rewrite !length_app. lia.
    - rewrite !Forall_app. done.
    - rewrite !Forall_app. done.
    - injection H1 as H1. injection H2 as H2.
      rewrite !length_app in *.
      replace (length a1 + (length b1 + length c1))%nat with 12%nat in * by lia.
      replace (length a2 + (length b2 + length c2))%nat with 12%nat in * by lia.
      lia. }
  apply app_inj_1 in E as [-> E]; [|lia].
  apply app_inj_1 in E as [-> ->]; [|lia].
  apply list_ascii_of_string_inj. by rewrite E1, E2.
Qed.

Lemma requested_design_id_inj_witness :
  Views.requested_design_id "BBCD-1234-WXYY" = Ok 183276309604895099
  /\ "BBCD-1234-WXYY" = "BBCD-1234-WXYY".
Proof.
  assert (Views.requested_design_id "BBCD-1234-WXYY" = Ok 183276309604895099)
    as H by (vm_compute; reflexivity).
  split; [exact H|].
  exact (requested_design_id_inj "BBCD-1234-WXYY" "BBCD-1234-WXYY"
           183276309604895099 H H).
Defined.

End DesignsMore.

(** * More about the error classes *)
Module ErrorsMoreFacts.
Import ErrorsMore ErrorsFacts.

(** *** The tile count *)

(** X14.  The count of the code is the product of the two quotients plus what the
    rows cut off at the bottom add up to over the columns: it is the product
    exactly when the height is a whole number of tiles or there is at most
    one column of them. *)
Theorem num_tiles_excess (W H width height : Z) :
  0 < H ->
  num_tiles W H width height
  = (width / W) * (height / H) + ((width / W) * (height mod H)) / H.
Proof.
  intros HH. unfold num_tiles.
  rewrite (Z.div_mod height H) at 1 by lia.
  replace (width / W * (H * (height / H) + height mod H))
    with (width / W * (height / H) * H + width / W * (height mod H)) by lia.
  by rewrite Z.div_add_l by lia.
Qed.

Lemma num_tiles_excess_witness :
  0 < 32
  /\ num_tiles 32 32 64 48 = (64 / 32) * (48 / 32) + ((64 / 32) * (48 mod 32)) / 32.
Proof.
  assert (0 < 32) as H by lia.
  split; [exact H | exact (num_tiles_excess 32 32 64 48 H)].
Defined.

(** X15.  The budget check is on the safe side: an image that passes it has no more
    tiles in its grid than the budget, and an image that fails it is refused
    with the error that carries the count of the code. *)
Theorem budget_check_sound (MAX_DESIGN_TILES W H : Z) (size : Z * Z) :
  0 < W -> 0 < H -> 0 <= size.1 -> 0 <= size.2 ->
  (TiledImageTooBigError_validate MAX_DESIGN_TILES W H size = Ok tt
   /\ (size.1 / W) * (size.2 / H) <= MAX_DESIGN_TILES)
  \/ (TiledImageTooBigError_validate MAX_DESIGN_TILES W H size
      = Raise (ACNH (new_TiledImageTooBigError W H size))
      /\ MAX_DESIGN_TILES < num_tiles W H size.1 size.2).
Proof.
  intros HW HH Hw Hh. rewrite validate_budget.
  pose proof (num_tiles_lower_bound W H size.1 size.2 HW HH Hw Hh).
  case_bool_decide; [right | left]; split; try done; lia.
Qed.

Lemma budget_check_sound_witness :
  (0 < 32 /\ 0 < 32 /\ 0 <= (64, 48).1 /\ 0 <= (64, 48).2)
  /\ ((TiledImageTooBigError_validate 2 32 32 (64, 48) = Ok tt
       /\ ((64, 48).1 / 32) * ((64, 48).2 / 32) <= 2)
      \/ (TiledImageTooBigError_validate 2 32 32 (64, 48)
          = Raise (ACNH (new_TiledImageTooBigError 32 32 (64, 48)))
          /\ 2 < num_tiles 32 32 (64, 48).1 (64, 48).2)).
Proof.
  assert (0 < 32) as H1 by lia.
  assert (0 <= (64, 48).1) as H2 by (simpl; lia).
  assert (0 <= (64, 48).2) as H3 by (simpl; lia).
  split; [done|].
  exact (budget_check_sound 2 32 32 (64, 48) H1 H1 H2 H3).
Defined.

(** *** Which errors serialise *)

Section Serialise.

Variables PALETTE_SIZE MAX_DESIGN_TILES BYTES_PER_PIXEL : Z.

(** X17.  For a class whose instances are built without arguments, [to_dict]
    either returns a dictionary or raises [AttributeError].  It returns a
    dictionary when the class has a code, except for
    [TwoPaginationReferencesPassedError], which has no status: the dictionary
    holds the message, the code of the class, a status between 400 and 499,
    and the pattern of the expression exactly for the classes that have
    one. *)
Theorem to_dict_without_arguments (c : cls) :
  requires_arguments c = false ->
  match to_dict PALETTE_SIZE MAX_DESIGN_TILES BYTES_PER_PIXEL (new c) with
  | Ok (Some d) =>
    c <> TwoPaginationReferencesPassedError
    /\ (exists text, d !! "error" = Some (VStr text))
    /\ (exists code, own_code c = Some code
                     /\ d !! "error_code" = Some (VInt code))
    /\ (exists status, d !! "http_status" = Some (VInt status)
                       /\ 400 <= status < 500)
    /\ d !! "validation_regex" = VStr <$> own_regex_pattern c
  | Ok None => False
  | Raise e =>
    e = AttributeError
    /\ (own_code c = None \/ c = TwoPaginationReferencesPassedError)
  end.
Proof.
  destruct c; intros Hargs; try discriminate Hargs;
    try (split; [reflexivity | auto]; fail);
    (split; [discriminate|];
     split; [eexists; by simplify_map_eq|];
     split; [eexists; split; [reflexivity | by simplify_map_eq]|];
     split; [eexists; split; [by simplify_map_eq | cbv; split; congruence]|];
     by simplify_map_eq).
Qed.

(** X18.  The error of a missing layer, which inherits both its constructor and
    its [to_dict] from [InvalidLayerError], serialises to a dictionary with
    the name and the size of the layer; its message quotes the name. *)
Theorem missing_layer_to_dict (name : string) (size : Z * Z) :
  exists d,
    to_dict PALETTE_SIZE MAX_DESIGN_TILES BYTES_PER_PIXEL
      (new_InvalidLayerError MissingLayerError name size) = Ok (Some d)
    /\ d !! "error"
       = Some (VStr ("Payload was missing one or more layers. First missing layer: "
                     +:+ dquote +:+ name +:+ dquote))
    /\ d !! "error_code" = Some (VInt 309)
    /\ d !! "http_status" = Some (VInt 400)
    /\ d !! "layer_name" = Some (VStr name)
    /\ d !! "layer_size" = Some (VPair size.1 size.2).
Proof.
  eexists. split; [reflexivity|].
  repeat split; by simplify_map_eq.
Qed.

(** The base class of the layer errors has a status but neither a message
    nor a code: an [InvalidLayerError] itself cannot be serialised. *)
Lemma invalid_layer_error_itself (name : string) (size : Z * Z) :
  to_dict PALETTE_SIZE MAX_DESIGN_TILES BYTES_PER_PIXEL
    (new_InvalidLayerError InvalidLayerError name size) = Raise AttributeError.
Proof. reflexivity. Qed.

(** The error of an invalid layer name serialises with the names it was
    built with. *)
Lemma invalid_layer_name_to_dict (names : list string) :
  exists d,
    to_dict PALETTE_SIZE MAX_DESIGN_TILES BYTES_PER_PIXEL
      (new_InvalidLayerNameError names) = Ok (Some d)
    /\ d !! "error" = Some (VStr "Invalid layer name")
    /\ d !! "error_code" = Some (VInt 207)
    /\ d !! "http_status" = Some (VInt 400)
    /\ d !! "valid_layer_names" = Some (VStrList names).
Proof.
  eexists. split; [reflexivity|].
  repeat split; by simplify_map_eq.
Qed.

(** X16.  When the budget check refuses an image, the error it raises serialises
    to the status 413 and the code 306, and its message states the count of
    the code and the budget; the count has no entry of its own in the
    dictionary. *)
Theorem budget_refusal_serialised (WIDTH HEIGHT : Z) (size : Z * Z) (e : exn) :
  TiledImageTooBigError_validate MAX_DESIGN_TILES WIDTH HEIGHT size = Raise e ->
  exists ex d,
    e = ACNH ex
    /\ MAX_DESIGN_TILES < num_tiles WIDTH HEIGHT size.1 size.2
    /\ to_dict PALETTE_SIZE MAX_DESIGN_TILES BYTES_PER_PIXEL ex = Ok (Some d)
    /\ d !! "error"
       = Some (VStr ("The uploaded image would create "
                     +:+ pretty (num_tiles WIDTH HEIGHT size.1 size.2)
                     +:+ " tiles, which is greater than the limit, "
                     +:+ pretty MAX_DESIGN_TILES +:+ "."))
    /\ d !! "error_code" = Some (VInt 306)
    /\ d !! "http_status" = Some (VInt 413)
    /\ d !! "num_tiles" = None.
Proof.
  rewrite validate_budget. case_bool_decide as Hbig; [|discriminate].
  intros [= <-].
  destruct (tiled_image_too_big_to_dict PALETTE_SIZE MAX_DESIGN_TILES
              BYTES_PER_PIXEL WIDTH HEIGHT size) as [d [Hd Hrest]].
  exists (new_TiledImageTooBigError WIDTH HEIGHT size), d.
  split; [done|]. split; [lia|]. split; [exact Hd | exact Hrest].
Qed.

(** X19.  The error of a layer of the wrong size serialises to the expected width
    and height and to the byte length [width * height * BYTES_PER_PIXEL];
    the name of the layer is in the message only, and the dictionary has
    these six entries and no other. *)
Theorem layer_size_error_serialised (name : string) (width height : Z) :
  exists d,
    to_dict PALETTE_SIZE MAX_DESIGN_TILES BYTES_PER_PIXEL
      (new_InvalidLayerSizeError name width height) = Ok (Some d)
    /\ d !! "error"
       = Some (VStr ("layer " +:+ name +:+ " was not " +:+ pretty width
                     +:+ "×" +:+ pretty height +:+ "."))
    /\ d !! "expected_byte_length"
       = Some (VInt (width * height * BYTES_PER_PIXEL))
    /\ dom d = list_to_set ["error"; "error_code"; "http_status";
                            "expected_width"; "expected_height";
                            "expected_byte_length"].
Proof.
  eexists. split; [reflexivity|].
  split; [by simplify_map_eq|]. split; [by simplify_map_eq|].
  vm_compute. reflexivity.
Qed.

End Serialise.

Lemma budget_refusal_serialised_witness :
  TiledImageTooBigError_validate 2 32 32 (64, 48)
  = Raise (ACNH (new_TiledImageTooBigError 32 32 (64, 48)))
  /\ exists ex d,
       ACNH (new_TiledImageTooBigError 32 32 (64, 48)) = ACNH ex
       /\ 2 < num_tiles 32 32 (64, 48).1 (64, 48).2
       /\ to_dict 15 2 4 ex = Ok (Some d)
       /\ d !! "error"
          = Some (VStr ("The uploaded image would create "
                        +:+ pretty (num_tiles 32 32 (64, 48).1 (64, 48).2)
                        +:+ " tiles, which is greater than the limit, "
                        +:+ pretty 2 +:+ "."))
       /\ d !! "error_code" = Some (VInt 306)
       /\ d !! "http_status" = Some (VInt 413)
       /\ d !! "num_tiles" = None.
Proof.
  assert (TiledImageTooBigError_validate 2 32 32 (64, 48)
          = Raise (ACNH (new_TiledImageTooBigError 32 32 (64, 48)))) as H
    by (vm_compute; reflexivity).
  split; [exact H|].
  exact (budget_refusal_serialised 15 2 4 32 32 (64, 48) _ H).
Defined.

Lemma to_dict_without_arguments_witness :
  requires_arguments UnknownDesignCodeError = false
  /\ match to_dict 15 50 4
             (new UnknownDesignCodeError) with
     | Ok (Some d) =>
       UnknownDesignCodeError <> TwoPaginationReferencesPassedError
       /\ (exists text, d !! "error" = Some (VStr text))
       /\ (exists code, own_code UnknownDesignCodeError = Some code
                        /\ d !! "error_code" = Some (VInt code))
       /\ (exists status, d !! "http_status" = Some (VInt status)
                          /\ 400 <= status < 500)
       /\ d !! "validation_regex" = VStr <$> own_regex_pattern UnknownDesignCodeError
     | Ok None => False
     | Raise e =>
       e = AttributeError
       /\ (own_code UnknownDesignCodeError = None
           \/ UnknownDesignCodeError = TwoPaginationReferencesPassedError)
     end.
Proof.
  split; [reflexivity|].
  exact (to_dict_without_arguments 15 50 4 UnknownDesignCodeError eq_refl).
Defined.

End ErrorsMoreFacts.

(** * The expressions of the format errors and the requests *)
Module RegexFacts.
Import Regex.

Lemma class_regex_pattern (c : cls) (r : rx) :
  class_regex c = Some r -> own_regex_pattern c = Some (rx_pattern r).
Proof. destruct c; intros [= <-]; reflexivity. Qed.

Lemma nullable_lang (r : rx) : nullable r = true <-> lang r [].
Proof.
  induction r as [| | | | |a IHa b IHb|a IHa b IHb|a IHa|a IHa|a IHa|a IHa|a IHa n];
    cbn [nullable lang].
  - split; [discriminate | done].
  - done.
  - split; [discriminate | intros [c [? _]]; discriminate].
  - split; [discriminate | intros [c [? _]]; discriminate].
  - split; discriminate.
  - rewrite andb_true_iff, IHa, IHb. split.
    + intros [? ?]. by exists [], [].
    + intros [u [v [E [? ?]]]]. symmetry in E.
      apply app_eq_nil in E as [-> ->]. done.
  - rewrite orb_true_iff, IHa, IHb. done.
  - done.
  - split; [by left | done].
  - rewrite IHa. split.
    + intros H. exists [[]]. split; [done|]. split; [done|]. by constructor.
    + intros [[|w ws] [Hne [E Hall]]]; [done|].
      cbn [concat] in E. symmetry in E. apply app_eq_nil in E as [-> _].
      by apply Forall_cons in Hall as [? _].
  - split; [|done]. intros _. exists []. split; [done | constructor].
  - destruct n as [|n].
    + split; [|done]. intros _. exists []. split; [done|]. split; [done | constructor].
    + rewrite IHa. split.
      * intros H. exists (replicate (S n) []). split; [apply length_replicate|].
        split; [|by apply Forall_replicate].
        clear. induction n as [|n IH]; [done|]. exact IH.
      * intros [[|w ws] [Hlen [E Hall]]]; [discriminate|].
        cbn [concat] in E. symmetry in E. apply app_eq_nil in E as [-> _].
        by apply Forall_cons in Hall as [? _].
Qed.

(** A concatenation of words that starts with [c]: its first word that is
    not empty starts with [c]. *)
Lemma concat_cons_split {A} (P : list A -> Prop) (c : A) (w : list A)
  (ws : list (list A)) :
  c :: w = concat ws -> Forall P ws ->
  exists (k : nat) u ws',
    ws = (replicate k [] ++ (c :: u) :: ws')%list
    /\ w = (u ++ concat ws')%list /\ P (c :: u) /\ Forall P ws'
    /\ (k <> 0%nat -> P []).
Proof.
  induction ws as [|w1 ws IH]; intros E Hall; [discriminate|].
  apply Forall_cons in Hall as [H1 Hall]. cbn [concat] in E.
  destruct w1 as [|d u].
  - cbn [app] in E. destruct (IH E Hall) as [k [u [ws' [-> [-> [? [? ?]]]]]]].
    exists (S k), u, ws'. done.
  - injection E as <- ->. exists 0%nat, u, ws. done.
Qed.

Lemma concat_replicate_nil {A} (k : nat) (ws : list (list A)) :
  concat (replicate k [] ++ ws) = concat ws.
Proof. induction k as [|k IH]; [done|]. exact IH. Qed.

Lemma deriv_repeat (c : ascii) (a : rx) (n : nat) :
  deriv c (RxRepeat a (S n))
  = RxAlt (RxCat (deriv c a) (RxRepeat a n))
          (if nullable a then deriv c (RxRepeat a n) else RxFail).
Proof. reflexivity. Qed.

Lemma deriv_lang (c : ascii) (r : rx) (w : list ascii) :
  lang (deriv c r) w <-> lang r (c :: w).
Proof.
  revert w.
  induction r as [| | | | |a IHa b IHb|a IHa b IHb|a IHa|a IHa|a IHa|a IHa|a IHa n];
    intros w.
  - done.
  - split; [done | discriminate].
  - cbn [deriv lang]. destruct (set_mem c items) eqn:E; cbn [lang].
    + split; [intros ->; by exists c | intros [d [[= -> ->] _]]; done].
    + split; [done | intros [d [[= -> ->] ?]]; congruence].
  - cbn [deriv lang]. destruct (is_digit c) eqn:E; cbn [lang].
    + split; [intros ->; by exists c | intros [d [[= -> ->] _]]; done].
    + split; [done | intros [d [[= -> ->] ?]]; congruence].
  - cbn [deriv lang]. destruct (Ascii.eqb_spec c c0) as [->|Hne]; cbn [lang].
    + split; [by intros -> | by intros [= ->]].
    + split; [done | intros [= ? ?]; congruence].
  - cbn [deriv lang]. split.
    + intros [[u [v [-> [Hu Hv]]]]|H].
      * exists (c :: u), v. split; [done|]. split; [by apply IHa | done].
      * destruct (nullable a) eqn:E; [|done].
        exists [], (c :: w). split; [done|].
        split; [by apply nullable_lang | by apply IHb].
    + intros [[|d u] [v [E [Hu Hv]]]].
      * right. cbn [app] in E. subst v.
        apply nullable_lang in Hu. rewrite Hu. by apply IHb.
      * injection E as <- ->. left. exists u, v. split; [done|].
        split; [by apply IHa | done].
  - cbn [deriv lang]. by rewrite IHa, IHb.
  - cbn [deriv lang]. apply IHa.
  - cbn [deriv lang]. rewrite IHa. split; [by right | intros [?|?]; done].
  - cbn [deriv lang]. split.
    + intros [u [v [-> [Hu [ws [-> Hall]]]]]].
      exists ((c :: u) :: ws). split; [done|]. split; [done|].
      constructor; [by apply IHa | done].
    + intros [ws [_ [E Hall]]].
      destruct (concat_cons_split _ c w ws E Hall) as [k [u [ws' [_ [-> [Hu [Hws' _]]]]]]].
      exists u, (concat ws'). split; [done|]. split; [by apply IHa|].
      by exists ws'.
  - cbn [deriv lang]. split.
    + intros [u [v [-> [Hu [ws [-> Hall]]]]]].
      exists ((c :: u) :: ws). split; [done|].
      constructor; [by apply IHa | done].
    + intros [ws [E Hall]].
      destruct (concat_cons_split _ c w ws E Hall) as [k [u [ws' [_ [-> [Hu [Hws' _]]]]]]].
      exists u, (concat ws'). split; [done|]. split; [by apply IHa|].
      by exists ws'.
  - revert w. induction n as [|n IHn]; intros w.
    + cbn [deriv lang]. split; [done|].
      intros [[|? ?] [? [? _]]]; discriminate.
    + rewrite deriv_repeat. cbn [lang]. split.
      * intros [[u [v [-> [Hu [ws [Hlen [-> Hall]]]]]]]|H].
        -- exists ((c :: u) :: ws). split; [cbn; lia|]. split; [done|].
           constructor; [by apply IHa | done].
        -- destruct (nullable a) eqn:E; [|done].
           apply IHn in H as [ws [Hlen [E' Hall]]].
           exists ([] :: ws). split; [cbn; lia|]. split; [done|].
           constructor; [by apply nullable_lang | done].
      * intros [[|w1 ws] [Hlen [E Hall]]]; [discriminate|].
        injection Hlen as Hlen. apply Forall_cons in Hall as [H1 Hall].
        cbn [concat] in E. destruct w1 as [|d u].
        -- right. apply nullable_lang in H1. rewrite H1. apply IHn.
           by exists ws.
        -- injection E as <- ->. left. exists u, (concat ws).
           split; [done|]. split; [by apply IHa|]. by exists ws.
Qed.

(** The matcher decides the strings of the expression. *)
Lemma matches_lang (r : rx) (w : list ascii) :
  matches r w = true <-> lang r w.
Proof.
  unfold matches. revert r. induction w as [|c w IH]; intros r.
  - apply nullable_lang.
  - cbn [foldl]. rewrite IH. apply deriv_lang.
Qed.

End RegexFacts.

Module RequestsFacts.
Import Regex Requests RegexFacts.

(** *** Expressions over single characters *)

Lemma lang_repeat_chars (P : ascii -> Prop) (a : rx) (n : nat) (w : list ascii) :
  (forall u, lang a u <-> exists c, u = [c] /\ P c) ->
  lang (RxRepeat a n) w <-> length w = n /\ Forall P w.
Proof.
  intros Ha. cbn [lang]. split.
  - intros [ws [<- [-> Hall]]]. induction Hall as [|u ws Hu _ IH]; [done|].
    apply Ha in Hu as [c [-> Hc]]. destruct IH as [IH1 IH2].
    cbn [concat app length]. split; [by rewrite IH1 | by constructor].
  - intros [<- Hall]. exists ((fun c => [c]) <$> w).
    split; [by rewrite length_fmap|]. split.
    + clear. induction w as [|c w IH]; [done|]. cbn. by rewrite <- IH.
    + induction Hall as [|c w Hc _ IH]; [constructor|].
      constructor; [apply Ha; by exists c | exact IH].
Qed.


Lemma lang_digit (u : list ascii) :
  lang RxDigit u <-> exists c, u = [c] /\ is_digit c = true.
Proof. reflexivity. Qed.



(** *** Decimal numerals *)

Lemma digit_value_digit (c : ascii) :
  is_digit c = true -> exists d, Render.digit_value c = Some d /\ 0 <= d <= 9.
Proof.
  destruct c as [[] [] [] [] [] [] [] []]; vm_compute; intros H;
    try discriminate H; eexists; (split; [reflexivity | split; discriminate]).
Qed.

Lemma int_digits_decimal (w : list ascii) (acc : Z) :
  Forall (fun c => is_digit c = true) w ->
  exists n, Render.int_digits (string_of_list_ascii w) acc = Some n
            /\ acc * 10 ^ Z.of_nat (length w) <= n
               < (acc + 1) * 10 ^ Z.of_nat (length w).
Proof.
  intros Hall. revert acc. induction Hall as [|c w Hc _ IH]; intros acc.
  - exists acc. split; [done|]. cbn. lia.
  - cbn [string_of_list_ascii Render.int_digits].
    destruct (digit_value_digit c Hc) as [d [-> Hd]]. cbn [mbind option_bind].
    destruct (IH (acc * 10 + d)) as [n [-> Hn]]. exists n. split; [done|].
    rewrite length_cons, Nat2Z.inj_succ, Z.pow_succ_r by lia.
    assert (0 < 10 ^ Z.of_nat (length w)) by (apply Z.pow_pos_nonneg; lia).
    nia.
Qed.

Lemma int_decimal_decimal (w : list ascii) :
  w <> [] -> Forall (fun c => is_digit c = true) w ->
  exists n, Render.int_decimal (string_of_list_ascii w) = Some n
            /\ 0 <= n < 10 ^ Z.of_nat (length w).
Proof.
  intros Hne Hall. destruct (int_digits_decimal w 0 Hall) as [n [E Hn]].
  exists n. split; [|lia]. destruct w as [|c w]; [done|]. exact E.
Qed.

(** *** The expressions of the classes *)


Lemma lang_optional_hyphen (w : list ascii) :
  lang (RxOpt (RxChar "-")) w <-> optional_hyphen w.
Proof. reflexivity. Qed.

Lemma author_id_fullmatch (s : string) :
  fullmatch author_id_regex s = true <-> author_id_shape s.
Proof.
  unfold fullmatch, author_id_shape. rewrite matches_lang.
  generalize (list_ascii_of_string s). intros w.
  unfold author_id_regex. cbn [lang].
  pose proof (fun n u => lang_repeat_chars _ RxDigit n u lang_digit) as Hd.
  cbn [lang] in Hd. split.
  - intros (a & r1 & -> & Ha & h1 & r2 & -> & Hh1 & b & r3 & -> & Hb
            & h2 & c & -> & Hh2 & Hc).
    apply Hd in Ha, Hb, Hc. exists a, h1, b, h2, c. done.
  - intros (a & h1 & b & h2 & c & -> & Ha & Hh1 & Hb & Hh2 & Hc).
    apply Hd in Ha, Hb, Hc.
    exists a, (h1 ++ b ++ h2 ++ c)%list. split; [done|]. split; [done|].
    exists h1, (b ++ h2 ++ c)%list. split; [done|]. split; [done|].
    exists b, (h2 ++ c)%list. split; [done|]. split; [done|].
    exists h2, c. done.
Qed.

Lemma dodo_set_mem (c : ascii) :
  set_mem c [Range "A" "H"; Range "J" "N"; Range "P" "Y"; Range "0" "9"] = true
  <-> c ∈ dodo_alphabet.
Proof.
  assert (c ∈ dodo_alphabet
          <-> str_mem c "ABCDEFGHJKLMNPQRSTUVWXY0123456789" = true) as ->.
  { unfold dodo_alphabet. generalize "ABCDEFGHJKLMNPQRSTUVWXY0123456789".
    intros s; induction s as [|d s IH]; cbn [list_ascii_of_string str_mem].
    - split; [intros H; inversion H | discriminate].
    - rewrite elem_of_cons, IH.
      destruct (Ascii.eqb_spec c d); split; auto.
      intros [?|?]; done. }
  destruct c as [[] [] [] [] [] [] [] []]; vm_compute; split; congruence.
Qed.

Lemma dodo_code_fullmatch (s : string) :
  fullmatch dodo_code_regex s = true <-> dodo_code_shape s.
Proof.
  unfold fullmatch, dodo_code_shape. rewrite matches_lang.
  unfold dodo_code_regex.
  rewrite (lang_repeat_chars (fun c => c ∈ dodo_alphabet)); [done|].
  intros u. cbn [lang]. split; intros [c [-> H]]; exists c; split; try done;
    by apply dodo_set_mem.
Qed.

Lemma scale_factor_fullmatch (s : string) :
  fullmatch scale_factor_regex s = true <-> s ∈ scale_factors.
Proof.
  unfold fullmatch. rewrite matches_lang. unfold scale_factor_regex. cbn [lang].
  split.
  - intros [c [E H]].
    assert (s = String c EmptyString) as ->.
    { rewrite <- (string_of_list_ascii_of_string s), E. done. }
    clear E. revert H.
    destruct c as [[] [] [] [] [] [] [] []]; vm_compute; intros H;
      try discriminate H; unfold scale_factors; set_solver.
  - unfold scale_factors. intros H.
    repeat (apply elem_of_cons in H as [->|H]; [by eexists|]).
    inversion H.
Qed.

(** The matcher agrees, on the expression of the design codes, with the
    matcher of fixed-width expressions that the design codes are checked
    with. *)
Lemma set_mem_One (c : ascii) (l : list ascii) :
  set_mem c (One <$> l) = true <-> c ∈ l.
Proof.
  induction l as [|d l IH]; cbn [fmap list_fmap set_mem existsb item_mem].
  - split; [discriminate | intros H; inversion H].
  - rewrite orb_true_iff, elem_of_cons. fold (set_mem c (One <$> l)).
    rewrite IH. destruct (Ascii.eqb_spec c d); split; intros [?|?]; auto; done.
Qed.

Lemma design_code_regex_agrees (s : string) :
  fullmatch Regex.design_code_regex s
  = Errors.fullmatch Errors.design_code_regex s.
Proof.
  apply eq_true_iff_eq. rewrite DesignsFacts.fullmatch_iff.
  unfold fullmatch. rewrite matches_lang.
  generalize (list_ascii_of_string s). intros w.
  unfold Regex.design_code_regex. cbn zeta. cbn [lang].
  assert (forall n u,
    lang (RxRepeat (RxSet (One <$> list_ascii_of_string
                                     Errors.DESIGN_CODE_ALPHABET)) n) u
    <-> length u = n /\ Forall Spec.in_alphabet u) as Hseg.
  { intros n u. apply lang_repeat_chars. intros v. cbn [lang].
    split; intros [c [-> H]]; exists c; (split; [done|]); by apply set_mem_One. }
  cbn [lang] in Hseg. split.
  - intros (a & r1 & -> & Ha & h1 & r2 & -> & -> & b & r3 & -> & Hb
            & h2 & c & -> & -> & Hc).
    apply Hseg in Ha as [? ?], Hb as [? ?], Hc as [? ?].
    exists a, b, c. done.
  - intros (a & b & c & -> & (La & Lb & Lc) & Fa & Fb & Fc).
    exists a, ("-"%char :: b ++ "-"%char :: c)%list. split; [done|].
    split; [by apply Hseg|].
    exists ["-"%char], (b ++ "-"%char :: c)%list. split; [done|]. split; [done|].
    exists b, ("-"%char :: c)%list. split; [done|]. split; [by apply Hseg|].
    exists ["-"%char], c. split; [done|]. split; [done|]. by apply Hseg.
Qed.

(** *** What the views make of a request *)

Section Requests.

Variable int : string -> option Z.
Variable xbrz_scale_wand_in_subprocess : Render.Image -> Z -> result Render.Image.

(** [int] reads a decimal numeral as its value. *)
Hypothesis int_decimal_numeral :
  forall s n, Render.int_decimal s = Some n -> int s = Some n.

Lemma int_of_chars (w : list ascii) :
  w <> [] -> Forall (fun c => is_digit c = true) w ->
  exists n, int (string_of_list_ascii w) = Some n
            /\ 0 <= n < 10 ^ Z.of_nat (length w).
Proof.
  intros Hne Hall. destruct (int_decimal_decimal w Hne Hall) as [n [E Hn]].
  exists n. split; [by apply int_decimal_numeral | done].
Qed.


Lemma digit_not_hyphen (c : ascii) :
  is_digit c = true -> negb (Ascii.eqb c "-") = true.
Proof.
  destruct (Ascii.eqb_spec c "-"%char) as [->|]; [|done].
  vm_compute. discriminate.
Qed.

Lemma remove_hyphens_digits (w : list ascii) :
  Forall (fun c => is_digit c = true) w ->
  List.filter (fun c => negb (Ascii.eqb c "-")) w = w.
Proof.
  intros H. apply DesignsFacts.filter_all. eapply Forall_impl; [exact H|].
  intros c Hc. by apply digit_not_hyphen.
Qed.

Lemma remove_optional_hyphen (h : list ascii) :
  optional_hyphen h -> List.filter (fun c => negb (Ascii.eqb c "-")) h = [].
Proof. by intros [->| ->]. Qed.

(** X25.  The id of an author is read from the request exactly when it is three
    groups of four digits with or without the hyphens between them; it is
    then below 10^12.  Any other text is refused with
    [InvalidAuthorIdError]. *)
Theorem requested_author_id_digits (author_id : string) :
  (author_id_shape author_id
   /\ exists n, requested_author_id int author_id = Ok n /\ 0 <= n < 10 ^ 12)
  \/ (~ author_id_shape author_id
      /\ requested_author_id int author_id
         = Raise (ACNH (new InvalidAuthorIdError))).
Proof.
  unfold requested_author_id, validate.
  pose proof (author_id_fullmatch author_id) as Hm.
  destruct (fullmatch author_id_regex author_id); cbn [negb bind].
  - left. destruct Hm as [Hm _]. pose proof (Hm eq_refl) as Hshape.
    split; [done|].
    destruct Hshape as (a & h1 & b & h2 & c & E & [La Da] & Hh1 & [Lb Db]
                        & Hh2 & [Lc Dc]).
    unfold Designs.remove_hyphens. rewrite E, !List.filter_app.
    rewrite (remove_hyphens_digits a), (remove_optional_hyphen h1),
      (remove_hyphens_digits b), (remove_optional_hyphen h2),
      (remove_hyphens_digits c) by done.
    cbn [app].
    destruct (int_of_chars (a ++ b ++ c)) as [n [En Hn]].
    + destruct a; [discriminate | done].
    + rewrite !Forall_app. done.
    + rewrite En. exists n. split; [done|].
      rewrite !length_app, La, Lb, Lc in Hn. exact Hn.
  - right. split; [|done]. intros H. apply Hm in H. discriminate H.
Qed.

(** What [get_scale_factor] returns, by the text of the argument. *)
Lemma get_scale_factor_cases (args : arguments) :
  (default "1" (args !! "scale") ∈ scale_factors
   /\ exists n, 1 <= n <= 6 /\ default "1" (args !! "scale") = pretty n
                /\ get_scale_factor int args = Ok n)
  \/ ((default "1" (args !! "scale") ∉ scale_factors)
      /\ get_scale_factor int args = Raise (ACNH (new InvalidScaleFactorError))).
Proof.
  unfold get_scale_factor, validate.
  generalize (default "1" (args !! "scale")). intros s.
  pose proof (scale_factor_fullmatch s) as Hm.
  destruct (fullmatch scale_factor_regex s); cbn [negb bind].
  - left. destruct Hm as [Hm _]. pose proof (Hm eq_refl) as Hs.
    split; [done|]. unfold scale_factors in Hs.
    apply elem_of_cons in Hs as [->|Hs];
      [exists 1; by rewrite (int_decimal_numeral "1" 1 eq_refl)|].
    apply elem_of_cons in Hs as [->|Hs];
      [exists 2; by rewrite (int_decimal_numeral "2" 2 eq_refl)|].
    apply elem_of_cons in Hs as [->|Hs];
      [exists 3; by rewrite (int_decimal_numeral "3" 3 eq_refl)|].
    apply elem_of_cons in Hs as [->|Hs];
      [exists 4; by rewrite (int_decimal_numeral "4" 4 eq_refl)|].
    apply elem_of_cons in Hs as [->|Hs];
      [exists 5; by rewrite (int_decimal_numeral "5" 5 eq_refl)|].
    apply elem_of_cons in Hs as [->|Hs];
      [exists 6; by rewrite (int_decimal_numeral "6" 6 eq_refl)|].
    inversion Hs.
  - right. split; [|done]. intros H. apply Hm in H. discriminate H.
Qed.

(** X26.  The scale factor of a request is 1 when the request has none; a factor
    that the request gives is accepted exactly when it is one of the six
    texts 1 to 6, and is then the number it stands for; any other text is
    refused with [InvalidScaleFactorError]. *)
Theorem get_scale_factor_range (args : arguments) :
  match args !! "scale" with
  | None => get_scale_factor int args = Ok 1
  | Some s =>
    (s ∈ scale_factors
     /\ exists n, 1 <= n <= 6 /\ s = pretty n
                  /\ get_scale_factor int args = Ok n)
    \/ ((s ∉ scale_factors)
        /\ get_scale_factor int args
           = Raise (ACNH (new InvalidScaleFactorError)))
  end.
Proof.
  pose proof (get_scale_factor_cases args) as H.
  destruct (args !! "scale") as [s|] eqn:E; cbn [default] in H; [exact H|].
  destruct H as [[_ [n [Hn [Hs H]]]]|[Hs _]].
  - rewrite H. f_equal.
    assert (n = 1 \/ n = 2 \/ n = 3 \/ n = 4 \/ n = 5 \/ n = 6) as Hcase by lia.
    destruct Hcase as [->|[->|[->|[->|[->| ->]]]]]; [done|discriminate Hs..].
  - destruct Hs. unfold scale_factors. set_solver.
Qed.

(** X27.  [maybe_scale] hands the image back untouched when the request has no
    scale factor or the factor 1, calls the scaler with a factor from 2 to 6
    otherwise, and never calls it for a request that is refused. *)
Theorem maybe_scale_cases (args : arguments) (image : Render.Image) :
  (default "1" (args !! "scale") = "1"
   /\ maybe_scale int xbrz_scale_wand_in_subprocess args image = Ok image)
  \/ (exists n, 2 <= n <= 6 /\ args !! "scale" = Some (pretty n)
                /\ maybe_scale int xbrz_scale_wand_in_subprocess args image
                   = xbrz_scale_wand_in_subprocess image n)
  \/ ((default "1" (args !! "scale") ∉ scale_factors)
      /\ maybe_scale int xbrz_scale_wand_in_subprocess args image
         = Raise (ACNH (new InvalidScaleFactorError))).
Proof.
  unfold maybe_scale.
  destruct (get_scale_factor_cases args) as [[_ [n [Hn [Hs H]]]]|[Hs H]];
    rewrite H; cbn [bind]; [|by right; right].
  case_bool_decide as E.
  - left. subst n. done.
  - right. left. exists n. split; [lia|]. split; [|done].
    destruct (args !! "scale") as [s|]; cbn in Hs; [by rewrite Hs|].
    assert (n = 2 \/ n = 3 \/ n = 4 \/ n = 5 \/ n = 6) as Hcase by lia.
    destruct Hcase as [->|[->|[->|[->| ->]]]]; discriminate Hs.
Qed.

End Requests.


Lemma requested_author_id_digits_witness :
  (forall s n, Render.int_decimal s = Some n -> Render.int_decimal s = Some n)
  /\ ((author_id_shape "1234-56789012"
       /\ exists n, requested_author_id Render.int_decimal "1234-56789012" = Ok n
                    /\ 0 <= n < 10 ^ 12)
      \/ (~ author_id_shape "1234-56789012"
          /\ requested_author_id Render.int_decimal "1234-56789012"
             = Raise (ACNH (new InvalidAuthorIdError)))).
Proof.
  split; [by intros s n H|].
  exact (requested_author_id_digits Render.int_decimal (fun s n H => H)
           "1234-56789012").
Defined.

Lemma get_scale_factor_range_witness :
  (forall s n, Render.int_decimal s = Some n -> Render.int_decimal s = Some n)
  /\ get_scale_factor Render.int_decimal ∅ = Ok 1.
Proof.
  split; [by intros s n H|].
  exact (get_scale_factor_range Render.int_decimal (fun s n H => H) ∅).
Defined.

Lemma maybe_scale_cases_witness :
  (forall s n, Render.int_decimal s = Some n -> Render.int_decimal s = Some n)
  /\ ((default "1" (({["scale" := "3"]} : arguments) !! "scale") = "1"
       /\ maybe_scale Render.int_decimal (fun im n => Ok im) {["scale" := "3"]}
            Examples.red_raster = Ok Examples.red_raster)
      \/ (exists n, 2 <= n <= 6
                    /\ ({["scale" := "3"]} : arguments) !! "scale" = Some (pretty n)
                    /\ maybe_scale Render.int_decimal (fun im n => Ok im)
                         {["scale" := "3"]} Examples.red_raster
                       = (fun im n => Ok im) Examples.red_raster n)
      \/ ((default "1" (({["scale" := "3"]} : arguments) !! "scale")
           ∉ scale_factors)
          /\ maybe_scale Render.int_decimal (fun im n => Ok im) {["scale" := "3"]}
               Examples.red_raster
             = Raise (ACNH (new InvalidScaleFactorError)))).
Proof.
  split; [by intros s n H|].
  exact (maybe_scale_cases Render.int_decimal (fun im n => Ok im)
           (fun s n H => H) {["scale" := "3"]} Examples.red_raster).
Defined.

(** X28.  A dodo code passes the check exactly when it has five characters, each a
    digit or a capital letter other than I, O and Z; any other text is
    refused with [InvalidDodoCodeError]. *)
Theorem dodo_code_validate (s : string) :
  (dodo_code_shape s
   /\ validate dodo_code_regex InvalidDodoCodeError s = Ok s)
  \/ (~ dodo_code_shape s
      /\ validate dodo_code_regex InvalidDodoCodeError s
         = Raise (ACNH (new InvalidDodoCodeError))).
Proof.
  unfold validate. pose proof (dodo_code_fullmatch s) as Hm.
  destruct (fullmatch dodo_code_regex s); cbn [negb].
  - left. split; [by apply Hm | done].
  - right. split; [|done]. intros H. apply Hm in H. discriminate H.
Qed.

End RequestsFacts.

(** * The handlers, the name of an image and the layers of a document *)
Module HandlersFacts.
Import Requests ErrorsMore.

Section Handlers.

Variables PALETTE_SIZE MAX_DESIGN_TILES BYTES_PER_PIXEL : Z.

(** X21.  For an error of a class that is built without arguments and has a code,
    other than [TwoPaginationReferencesPassedError], both handlers answer
    with the status of the class, and the handler of the API with the code
    of the class in the body. *)
Theorem handlers_answer (c : cls) :
  requires_arguments c = false ->
  is_Some (own_code c) ->
  c <> TwoPaginationReferencesPassedError ->
  exists resp status message,
    handle_acnh_exception PALETTE_SIZE MAX_DESIGN_TILES BYTES_PER_PIXEL (new c)
    = Ok resp
    /\ class_attr own_http_status c = Some status
    /\ status_code resp = VInt status
    /\ data resp !! "error_code" = VInt <$> own_code c
    /\ content_type resp = "application/json"
    /\ handle_acnh_exception_frontend PALETTE_SIZE MAX_DESIGN_TILES
         BYTES_PER_PIXEL (new c)
       = Ok (VStr message, VInt status).
Proof.
  destruct c; intros Hargs [code Hcode] Hne;
    try discriminate Hargs; try discriminate Hcode; try (by destruct Hne);
    (eexists; eexists; eexists;
     split; [reflexivity|]; split; [reflexivity|]; split; [reflexivity|];
     split; [by simplify_map_eq|]; split; reflexivity).
Qed.

(** X22.  A request for a layer that the document does not have is not answered:
    the error that [render_layer] raises makes both handlers raise
    [AttributeError]. *)
Theorem missing_layer_unanswered (WIDTH HEIGHT : Z) (int : string -> option Z)
  (raw : Render.raw_image) (layer_i : Z) (e : error) :
  Render.render_layer WIDTH HEIGHT int raw layer_i = Raise (ACNH e) ->
  handle_acnh_exception PALETTE_SIZE MAX_DESIGN_TILES BYTES_PER_PIXEL e
  = Raise AttributeError
  /\ handle_acnh_exception_frontend PALETTE_SIZE MAX_DESIGN_TILES
       BYTES_PER_PIXEL e
     = Raise AttributeError.
Proof.
  intros H. apply RenderMore.render_layer_acnh in H as [_ ->]. by split.
Qed.

(** X20.  The error of a name that is too long serialises with the maximum it was
    built with, in the message and under [max_length]. *)
Theorem image_name_too_long_to_dict (max_len : Z) :
  exists d,
    to_dict PALETTE_SIZE MAX_DESIGN_TILES BYTES_PER_PIXEL
      (new_ImageNameTooLongError max_len) = Ok (Some d)
    /\ d !! "error"
       = Some (VStr ("The name provided was too long. Maximum in this case is "
                     +:+ pretty max_len +:+ " characters."))
    /\ d !! "error_code" = Some (VInt 312)
    /\ d !! "http_status" = Some (VInt 400)
    /\ d !! "max_length" = Some (VInt max_len).
Proof.
  eexists. split; [reflexivity|].
  repeat split; by simplify_map_eq.
Qed.

End Handlers.

Lemma handlers_answer_witness :
  requires_arguments InvalidDesignCodeError = false
  /\ is_Some (own_code InvalidDesignCodeError)
  /\ InvalidDesignCodeError <> TwoPaginationReferencesPassedError
  /\ exists resp status message,
       handle_acnh_exception 15 50 4
         (new InvalidDesignCodeError) = Ok resp
       /\ class_attr own_http_status InvalidDesignCodeError = Some status
       /\ status_code resp = VInt status
       /\ data resp !! "error_code" = VInt <$> own_code InvalidDesignCodeError
       /\ content_type resp = "application/json"
       /\ handle_acnh_exception_frontend 15 50
            4 (new InvalidDesignCodeError)
          = Ok (VStr message, VInt status).
Proof.
  assert (requires_arguments InvalidDesignCodeError = false) as H1 by reflexivity.
  assert (is_Some (own_code InvalidDesignCodeError)) as H2 by (by eexists).
  assert (InvalidDesignCodeError <> TwoPaginationReferencesPassedError) as H3
    by discriminate.
  split; [exact H1|]. split; [exact H2|]. split; [exact H3|].
  exact (handlers_answer 15 50 4 InvalidDesignCodeError H1 H2 H3).
Defined.

Lemma missing_layer_unanswered_witness :
  Render.render_layer 32 32 Render.int_decimal Examples.bare_document 0
  = Raise (ACNH (new_InvalidLayerIndexError 0))
  /\ handle_acnh_exception 15 50 4
       (new_InvalidLayerIndexError 0) = Raise AttributeError
  /\ handle_acnh_exception_frontend 15 50
       4 (new_InvalidLayerIndexError 0) = Raise AttributeError.
Proof.
  assert (Render.render_layer 32 32 Render.int_decimal Examples.bare_document 0
          = Raise (ACNH (new_InvalidLayerIndexError 0))) as H
    by (vm_compute; reflexivity).
  split; [exact H|].
  exact (missing_layer_unanswered 15 50 4 32 32 Render.int_decimal
           Examples.bare_document 0 (new_InvalidLayerIndexError 0) H).
Defined.

End HandlersFacts.

Module NamesFacts.
Import Names.

Lemma pretty_N_go_length (x : N) (s : string) :
  (String.length s <= String.length (pretty_N_go x s))%nat.
Proof.
  revert s. induction (N.lt_wf_0 x) as [x _ IH]; intros s.
  destruct (decide (x = 0)%N) as [->|Hx]; [by rewrite pretty_N_go_0|].
  rewrite pretty_N_go_step by lia.
  etrans; [|apply IH; apply N.div_lt; lia]. cbn. lia.
Qed.

Lemma pretty_Z_length (z : Z) : (1 <= String.length (pretty z))%nat.
Proof.
  destruct z as [|p|p]; [done| |].
  - change (pretty (Z.pos p)) with (pretty_N_go (N.pos p) EmptyString).
    rewrite pretty_N_go_step by lia. etrans; [|apply pretty_N_go_length]. cbn. lia.
  - change (pretty (Z.neg p)) with (String "-" (pretty p)).
    cbn [String.length]. lia.
Qed.

Section Names.

Variables MAX_NAME_LEN WIDTH HEIGHT : Z.

Lemma overhead_at_least_2 (size : Z * Z) : 2 <= overhead WIDTH HEIGHT size.
Proof.
  unfold overhead.
  change (" " +:+ ?s) with (String " " s).
  pose proof (pretty_Z_length (num_tiles WIDTH HEIGHT size.1 size.2)).
  cbn [String.length]. lia.
Qed.

(** X23.  When [ImageNameTooLongError.validate] refuses a design, the design has a
    layer ["0"] and a name longer than the maximum that the error reports;
    that maximum is at least 2 below [MAX_NAME_LEN], and it is accurate: the
    same design with any name of at most that length is accepted as it
    is. *)
Theorem name_limit_accurate (d : design) (e : exn) :
  ImageNameTooLongError_validate MAX_NAME_LEN WIDTH HEIGHT d = Raise e ->
  e <> KeyError ->
  exists size name max_len,
    layer_images d !! "0" = Some size
    /\ design_name d = Some name
    /\ e = ACNH (new_ImageNameTooLongError max_len)
    /\ max_len = MAX_NAME_LEN - overhead WIDTH HEIGHT size
    /\ max_len <= MAX_NAME_LEN - 2
    /\ max_len < Z.of_nat (length name)
    /\ forall name', Z.of_nat (length name') <= max_len ->
         ImageNameTooLongError_validate MAX_NAME_LEN WIDTH HEIGHT (rename d name')
         = Ok (rename d name').
Proof.
  unfold ImageNameTooLongError_validate.
  destruct (layer_images d !! "0") as [size|] eqn:Hsize; cbn [or_raise bind];
    [|by intros [= <-] ?].
  destruct (design_name d) as [name|] eqn:Hname; [|discriminate].
  case_bool_decide as Hlong; [|discriminate]. intros [= <-] _.
  pose proof (overhead_at_least_2 size).
  exists size, name, (MAX_NAME_LEN - overhead WIDTH HEIGHT size).
  repeat split; try done; try lia.
  intros name' Hshort. cbn [rename layer_images design_name].
  rewrite Hsize. cbn [or_raise bind].
  rewrite bool_decide_eq_false_2 by lia. done.
Qed.

(** A design without a name is accepted whatever the size of its layer, and
    a design without a layer ["0"] makes the check raise [KeyError], with or
    without a name. *)
Lemma name_check_edges (d : design) :
  match layer_images d !! "0" with
  | None => ImageNameTooLongError_validate MAX_NAME_LEN WIDTH HEIGHT d
            = Raise KeyError
  | Some size =>
    match design_name d with
    | None => ImageNameTooLongError_validate MAX_NAME_LEN WIDTH HEIGHT d = Ok d
    | Some name =>
      ImageNameTooLongError_validate MAX_NAME_LEN WIDTH HEIGHT d
      = if bool_decide (Z.of_nat (length name) + overhead WIDTH HEIGHT size
                        > MAX_NAME_LEN)
        then Raise (ACNH (new_ImageNameTooLongError
                            (MAX_NAME_LEN - overhead WIDTH HEIGHT size)))
        else Ok d
    end
  end.
Proof.
  unfold ImageNameTooLongError_validate.
  destruct (layer_images d !! "0"); cbn [or_raise bind]; [|done].
  by destruct (design_name d).
Qed.

End Names.

Lemma name_limit_accurate_witness :
  ImageNameTooLongError_validate 4 32 32 small_design
  = Raise (ACNH (new_ImageNameTooLongError 2))
  /\ ACNH (new_ImageNameTooLongError 2) <> KeyError
  /\ exists size name max_len,
       layer_images small_design !! "0" = Some size
       /\ design_name small_design = Some name
       /\ ACNH (new_ImageNameTooLongError 2)
          = ACNH (new_ImageNameTooLongError max_len)
       /\ max_len = 4 - overhead 32 32 size
       /\ max_len <= 4 - 2
       /\ max_len < Z.of_nat (length name)
       /\ forall name', Z.of_nat (length name') <= max_len ->
            ImageNameTooLongError_validate 4 32 32 (rename small_design name')
            = Ok (rename small_design name').
Proof.
  assert (ImageNameTooLongError_validate 4 32 32 small_design
          = Raise (ACNH (new_ImageNameTooLongError 2))) as H
    by (vm_compute; reflexivity).
  assert (ACNH (new_ImageNameTooLongError 2) <> KeyError) as H' by discriminate.
  split; [exact H|]. split; [exact H'|].
  exact (name_limit_accurate 4 32 32 small_design _ H H').
Defined.

End NamesFacts.

Module RenderAllFacts.
Import Render RenderAll RenderFacts.

Section RenderAll.

Variables WIDTH HEIGHT : Z.
Variable int : string -> option Z.

Lemma render_layers_loop_yields raw palette items (i : Z) (im : Image) :
  (i, im) ∈ (render_layers_loop WIDTH HEIGHT int raw palette items).1 ->
  exists k layer, (k, layer) ∈ items /\ int k = Some i
                  /\ _render_layer WIDTH HEIGHT int raw palette layer = Ok im.
Proof.
  induction items as [|[k layer] items IH]; cbn [render_layers_loop].
  - intros H. inversion H.
  - destruct (int k) as [j|] eqn:Ek; [|intros H; inversion H].
    destruct (_render_layer WIDTH HEIGHT int raw palette layer) as [im'|] eqn:E;
      [|intros H; inversion H].
    cbn [fst]. intros H. apply elem_of_cons in H as [[= -> ->]|H].
    + exists k, layer. split; [by left | done].
    + destruct (IH H) as [k' [layer' [Hin [? ?]]]].
      exists k', layer'. split; [by right | done].
Qed.

Lemma render_layers_loop_count raw palette items :
  (render_layers_loop WIDTH HEIGHT int raw palette items).2 = None ->
  length (render_layers_loop WIDTH HEIGHT int raw palette items).1
  = length items.
Proof.
  induction items as [|[k layer] items IH]; cbn [render_layers_loop]; [done|].
  destruct (int k) as [j|]; [|discriminate].
  destruct (_render_layer WIDTH HEIGHT int raw palette layer); [|discriminate].
  cbn [fst snd length]. intros H. by rewrite IH.
Qed.

(** X8.  Every image that [render_layers] yields is the image that [render_layer]
    returns for the index it is yielded with, when the keys of the layers
    are the texts of their indices; and a generator that ends without an
    exception has yielded one image for each layer of the document. *)
Theorem render_layers_agree (raw : raw_image) (items : list (string * list Z)) :
  items_of raw items ->
  (forall k i, k ∈ items.*1 -> int k = Some i -> pretty i = k) ->
  (forall i im, (i, im) ∈ (render_layers WIDTH HEIGHT int raw items).1 ->
                render_layer WIDTH HEIGHT int raw i = Ok im)
  /\ ((render_layers WIDTH HEIGHT int raw items).2 = None ->
      length (render_layers WIDTH HEIGHT int raw items).1 = size (mData raw)).
Proof.
  intros [Hdup Hitems] Hkeys. unfold render_layers.
  destruct (gen_palette int raw) as [palette|] eqn:Hpal; cbn [fst snd].
  - split.
    + intros i im H.
      apply render_layers_loop_yields in H as [k [layer [Hin [Hk Him]]]].
      assert (pretty i = k) as Hp.
      { apply Hkeys; [|done]. apply list_elem_of_fmap. by exists (k, layer). }
      unfold Render.render_layer. rewrite Hitems, Hp.
      rewrite (elem_of_list_to_map_1 items k layer Hdup Hin).
      rewrite Hpal. cbn [bind]. exact Him.
    + intros H. rewrite (render_layers_loop_count _ _ _ H).
      rewrite Hitems, map_size_list_to_map by done. done.
  - split; [intros i im H; inversion H | discriminate].
Qed.

(** X9.  When the palette of the document cannot be built, the generator yields
    nothing and ends with [ValueError], however many layers there are. *)
Theorem render_layers_bad_palette (raw : raw_image) (items : list (string * list Z)) :
  (forall palette, gen_palette int raw <> Ok palette) ->
  render_layers WIDTH HEIGHT int raw items = ([], Some ValueError).
Proof.
  intros H. unfold render_layers.
  destruct (gen_palette_result int raw) as [[palette E]| ->]; [|done].
  by destruct (H palette).
Qed.

End RenderAll.

Lemma render_layers_agree_witness :
  items_of one_layer [("0", [240])]
  /\ (forall k i, k ∈ [("0", [240])].*1 -> int_decimal k = Some i -> pretty i = k)
  /\ (forall i im,
        (i, im) ∈ (render_layers 2 1 int_decimal one_layer [("0", [240])]).1 ->
        render_layer 2 1 int_decimal one_layer i = Ok im)
  /\ ((render_layers 2 1 int_decimal one_layer [("0", [240])]).2 = None ->
      length (render_layers 2 1 int_decimal one_layer [("0", [240])]).1
      = size (mData one_layer)).
Proof.
  assert (items_of one_layer [("0", [240])]) as H1.
  { split; [repeat constructor; set_solver | reflexivity]. }
  assert (forall k i, k ∈ [("0", [240])].*1 -> int_decimal k = Some i ->
                      pretty i = k) as H2.
  { intros k i Hk. cbn in Hk. apply list_elem_of_singleton in Hk as ->.
    by intros [= <-]. }
  split; [exact H1|]. split; [exact H2|].
  exact (render_layers_agree 2 1 int_decimal one_layer [("0", [240])] H1 H2).
Defined.

Lemma render_layers_bad_palette_witness :
  (forall palette,
     gen_palette int_decimal {| mPalette := [("x", 0)]; mData := ∅ |}
     <> Ok palette)
  /\ render_layers 2 1 int_decimal {| mPalette := [("x", 0)]; mData := ∅ |}
       [("0", [240])]
     = ([], Some ValueError).
Proof.
  assert (forall palette,
            gen_palette int_decimal {| mPalette := [("x", 0)]; mData := ∅ |}
            <> Ok palette) as H by (intros palette; vm_compute; discriminate).
  split; [exact H|].
  exact (render_layers_bad_palette 2 1 int_decimal _ [("0", [240])] H).
Defined.

End RenderAllFacts.
